(** * PYPOWER [opf_args]: resolution of the OPF input arguments

    A shallow embedding of [pypower/opf_args.py] and the properties of its
    argument resolver.  The function receives a Python argument tuple,
    decides between the "case handle" and the "individual matrices" calling
    conventions, fills in defaults, merges the fields embedded in the loaded
    case, runs the dimension and sparsity checks (which only log) and
    returns a tuple.

    Python objects are modelled by the inductive [value]; the exceptions the
    interpreter raises are modelled by [exn]; the records written through the
    module logger are collected in a list, so a computation is a pair of the
    records logged and either a returned value or a raised exception. *)

From stdpp Require Import gmap strings list fin_maps.
From Stdlib Require Import ZArith Lia.

#[local] Set Warnings "-register-all,-clear-no-such-hyp".

(** ** Python values *)

(** The objects [opf_args] can be handed.  Numbers inside arrays are kept
    as integers: the function never computes with them, it only tests
    them against zero.
    - [VArray shape data] is a dense [numpy.ndarray] of the given shape,
      [data] in row-major order; [array([])] is [VArray [0] []];
    - [VSparse m n nz] is a [scipy.sparse.spmatrix] of shape [(m, n)] with
      stored entries [nz] (row, column, number);
    - [VDict] is a plain [dict]; [VStruct] is the case object the loader
      returns, a [dict] whose keys can also be read as attributes;
    - [VFun] is a function object, [VTuple] a tuple. *)
Inductive value : Type :=
| VNone
| VNum (x : Z)
| VStr (s : string)
| VFun (name : string)
| VArray (shape : list nat) (data : list Z)
| VSparse (m n : nat) (nz : list (nat * nat * Z))
| VDict (d : gmap string value)
| VStruct (d : gmap string value)
| VTuple (vs : list value).

(** [array([])]: a one-dimensional array without elements. *)
Definition array_empty : value := VArray [0] [].

(** ** Exceptions, outcomes and the logging monad *)

Inductive exn : Type :=
| AttributeError
| TypeError
| KeyError
| IndexError
| ValueError
| UnboundLocalError
| IOError.

Inductive outcome (A : Type) : Type :=
| Return (a : A)
| Raise (e : exn).
Arguments Return {A} a.
Arguments Raise {A} e.

(** A computation: the records logged, and how it ended. *)
Definition M (A : Type) : Type := (list string * outcome A)%type.

Definition ret {A : Type} (a : A) : M A := ([], Return a).

(** Sequencing: the records of the first computation come first; an
    exception ends the computation. *)
Definition bind {A B : Type} (m : M A) (f : A → M B) : M B :=
  match m with
  | (l, Return a) => let '(l', o) := f a in (l ++ l', o)
  | (l, Raise e) => (l, Raise e)
  end.

Notation "'let*' x ':=' m 'in' k" := (bind m (λ x, k))
  (at level 10, x name, m at level 100, k at level 200,
   format "'[v' 'let*'  x  ':='  m  'in'  '/' k ']'").
Notation "'let*' ' p ':=' m 'in' k" := (bind m (λ x, match x with p => k end))
  (at level 10, p pattern, m at level 100, k at level 200,
   format "'[v' 'let*'  ' p  ':='  m  'in'  '/' k ']'").
Notation "m ';;' k" := (bind m (λ _, k))
  (at level 100, k at level 200, right associativity).

Definition raise {A : Type} (e : exn) : M A := ([], Raise e).

(** An operation of the interpreter or of a library: it logs nothing. *)
Definition lift {A : Type} (o : outcome A) : M A := ([], o).

(** ** The interpreter and library operations the function uses *)

Definition nonzero (z : Z) : bool := negb (z =? 0)%Z.

Definition product (l : list nat) : nat := foldr Nat.mul 1 l.

(** [isinstance(x, str)], [isinstance(x, dict)], [isinstance(x, spmatrix)]. *)
Definition isinstance_str (v : value) : bool :=
  match v with VStr _ => true | _ => false end.

Definition isinstance_dict (v : value) : bool :=
  match v with VDict _ | VStruct _ => true | _ => false end.

Definition isinstance_spmatrix (v : value) : bool :=
  match v with VSparse _ _ _ => true | _ => false end.

(** [bool(x)], as [any] applies it to the elements of a tuple.  An array
    with more than one element has no truth value; a sparse matrix is true
    when it stores an entry. *)
Definition truth (v : value) : outcome bool :=
  match v with
  | VNone => Return false
  | VNum x => Return (nonzero x)
  | VStr s => Return (negb (String.eqb s ""))
  | VFun _ => Return true
  | VArray shape data =>
      match product shape with
      | 0 => Return false
      | 1 => Return (existsb nonzero (firstn 1 data))
      | _ => Raise ValueError
      end
  | VSparse m n nz => Return (negb (Nat.eqb (length nz) 0))
  | VDict d | VStruct d => Return (negb (Nat.eqb (size d) 0))
  | VTuple vs => Return (negb (Nat.eqb (length vs) 0))
  end.

(** The loop of the builtin [any]: stop at the first true element, fail
    at the first element without a truth value. *)
Fixpoint any_elements (vs : list value) : outcome bool :=
  match vs with
  | [] => Return false
  | v :: vs' =>
      match truth v with
      | Return true => Return true
      | Return false => any_elements vs'
      | Raise e => Raise e
      end
  end.

(** The builtin [any(x)] (the module imports only [array] from numpy, so
    [any] is the builtin).  It iterates over [x]:
    - [None], numbers and functions are not iterable;
    - a string yields its characters, each a non-empty string;
    - an array yields its items along the first axis: numbers for a
      one-dimensional array, sub-arrays otherwise, and a sub-array with
      more than one element has no truth value;
    - a sparse matrix yields its rows, and a row is true when it stores
      an entry;
    - a dict yields its keys. *)
Definition any (v : value) : outcome bool :=
  match v with
  | VNone | VNum _ | VFun _ => Raise TypeError
  | VStr s => Return (negb (String.eqb s ""))
  | VArray [] _ => Raise TypeError
  | VArray (n :: rest) data =>
      if Nat.eqb n 0 then Return false
      else match product rest with
           | 0 => Return false
           | 1 => Return (existsb nonzero (firstn n data))
           | _ => Raise ValueError
           end
  | VSparse m n nz => Return (existsb (λ e, Nat.ltb e.1.1 m) nz)
  | VDict d | VStruct d =>
      Return (existsb (λ kv, negb (String.eqb kv.1 "")) (map_to_list d))
  | VTuple vs => any_elements vs
  end.

(** [x.shape]: arrays and sparse matrices have one. *)
Definition shape (v : value) : outcome (list nat) :=
  match v with
  | VArray s _ => Return s
  | VSparse m n _ => Return [m; n]
  | _ => Raise AttributeError
  end.

(** [x.shape[i]]. *)
Definition shape_at (v : value) (i : nat) : outcome nat :=
  match shape v with
  | Return s =>
      match s !! i with
      | Some k => Return k
      | None => Raise IndexError
      end
  | Raise e => Raise e
  end.

(** [len(x)]. *)
Definition len (v : value) : outcome nat :=
  match v with
  | VNone | VNum _ | VFun _ => Raise TypeError
  | VStr s => Return (String.length s)
  | VArray [] _ => Raise TypeError
  | VArray (n :: _) _ => Return n
  | VSparse _ _ _ => Raise TypeError
  | VDict d | VStruct d => Return (size d)
  | VTuple vs => Return (length vs)
  end.

(** [x.name]: only the case object of the loader exposes its keys as
    attributes. *)
Definition getattr (v : value) (name : string) : outcome value :=
  match v with
  | VStruct d =>
      match d !! name with
      | Some x => Return x
      | None => Raise AttributeError
      end
  | _ => Raise AttributeError
  end.

(** [x.has_key(k)]. *)
Definition has_key (v : value) (k : string) : outcome bool :=
  match v with
  | VDict d | VStruct d => Return (bool_decide (is_Some (d !! k)))
  | _ => Raise AttributeError
  end.

(** [x[k]]. *)
Definition getitem (v : value) (k : string) : outcome value :=
  match v with
  | VDict d | VStruct d =>
      match d !! k with
      | Some x => Return x
      | None => Raise KeyError
      end
  | _ => Raise TypeError
  end.

(** [x[k] = y]. *)
Definition setitem (v : value) (k : string) (y : value) : outcome value :=
  match v with
  | VDict d => Return (VDict (<[k := y]> d))
  | VStruct d => Return (VStruct (<[k := y]> d))
  | _ => Raise TypeError
  end.

(** ** The module globals *)

(** [logger.error(msg)]: one more record, nothing else happens.  (The
    module binds [logger] through a misspelt [logging.gerLogger]; the
    embedding takes [logger] to be the [logging.Logger] that
    [logging.getLogger(__name__)] returns.) *)
Definition logger_error (msg : string) : M unit := ([msg], Return ()).

(** [logger.logger.error(msg)]: a [Logger] has no attribute [logger], so
    the attribute access raises before anything is logged. *)
Definition logger_logger_error (msg : string) : M unit := raise AttributeError.

Definition msg_arity : string :=
  "opf_args: Incorrect input arg order, number or type".
Definition msg_Cw : string :=
  "opf_args.m: dimension mismatch between N and Cw in generalized cost parameters".
Definition msg_fparm : string :=
  "opf_args.m: dimension mismatch between N and fparm in generalized cost parameters".
Definition msg_H : string :=
  "opf_args.m: dimension mismatch between N and H in generalized cost parameters".
Definition msg_A_N : string :=
  "opf_args.m: A and N must have the same number of columns".
Definition msg_N_sparse : string :=
  "opf_args.m: N must be sparse in generalized cost parameters".
Definition msg_H_sparse : string :=
  "opf_args.m: H must be sparse in generalized cost parameters".
Definition msg_Au_sparse : string :=
  "opf_args.m: Au must be sparse".

(** The local variables that hold the optional arguments. *)
Record locals : Type := Locals {
  Au : value; lbu : value; ubu : value; ppopt : value;
  N : value; fparm : value; H : value; Cw : value;
  z0 : value; zl : value; zu : value; userfcn : value
}.

(** ** Sample collaborators and data *)

(** A loader for cases held in memory: a dict or struct becomes the case
    struct with the same fields, also when it arrives wrapped in a
    one-element tuple; there are no case files. *)
Definition sample_loadcase (v : value) : outcome value :=
  match v with
  | VDict d | VStruct d => Return (VStruct d)
  | VTuple [VDict d] | VTuple [VStruct d] => Return (VStruct d)
  | VStr _ => Raise IOError
  | _ => Raise ValueError
  end.

(** A default options table with two entries. *)
Definition sample_ppoption : value :=
  VDict (<["VERBOSE" := VNum 1]> (<["PF_ALG" := VNum 1]> ∅)).

(** [array([x, ...])]: a one-dimensional array. *)
Definition array1 (xs : list Z) : value := VArray [length xs] xs.

(** The required fields of a case. *)
Definition base_fields : gmap string value :=
  <["baseMVA" := VNum 100]> (<["bus" := VArray [1; 1] [1%Z]]>
  (<["gen" := VArray [1; 1] [1%Z]]> (<["branch" := VArray [1; 1] [1%Z]]>
  (<["gencost" := VArray [1; 1] [2%Z]]> ∅)))).

(** A case that embeds every optional field; its matrices have one row
    and one column. *)
Definition full_fields : gmap string value :=
  <["A" := VSparse 1 1 [(0, 0, 1%Z)]]> (<["l" := array1 [0%Z]]>
  (<["u" := array1 [5%Z]]>
  (<["N" := VSparse 1 1 [(0, 0, 1%Z)]]>
  (<["Cw" := array1 [1%Z]]>
  (<["H" := VSparse 1 1 [(0, 0, 2%Z)]]>
  (<["fparm" := VArray [1; 1] [1%Z]]>
  (<["z0" := array1 [7%Z]]> (<["zl" := array1 [3%Z]]>
  (<["zu" := array1 [9%Z]]>
  (<["userfcn" := array_empty]> base_fields)))))))))).

(** Explicit arguments, all different from the fields of the case. *)
Definition A' : value := VSparse 1 1 [(0, 0, 4%Z)].
Definition l' : value := array1 [1%Z].
Definition u' : value := array1 [2%Z].
Definition opts' : value := VDict (<["OPF_ALG" := VNum 560]> ∅).
Definition N' : value := VSparse 1 1 [(0, 0, 3%Z)].
Definition fparm' : value := VArray [1; 1] [1%Z].
Definition H' : value := VSparse 1 1 [(0, 0, 5%Z)].
Definition Cw' : value := array1 [6%Z].

(** [opf_args(ppc, A, l, u, ppopt, N, fparm, H, Cw)]. *)
Definition call_9 : list value :=
  [VDict full_fields; A'; l'; u'; opts'; N'; fparm'; H'; Cw'].

(** The same call with a [Cw] of two rows against an [N] of one row. *)
Definition call_Cw_2 : list value :=
  [VDict full_fields; A'; l'; u'; opts'; N'; fparm'; H';
   array1 [6%Z; 6%Z]].

(** The same call with an [H] of two rows and one column. *)
Definition call_H_2x1 : list value :=
  [VDict full_fields; A'; l'; u'; opts'; N'; fparm';
   VSparse 2 1 [(0, 0, 5%Z)]; Cw'].

(** The same call with a dense [A]. *)
Definition call_dense_A : list value :=
  [VDict full_fields; VArray [1; 1] [4%Z]; l'; u'; opts'; N'; fparm'; H'; Cw'].

(** The same call with an empty options dict. *)
Definition call_no_opts : list value :=
  [VDict full_fields; A'; l'; u'; VDict ∅; N'; fparm'; H'; Cw'].

(** [opf_args(ppc, A, l, u, ppopt, N, fparm, H, Cw, z0, zl, zu)] with an
    explicit [z0], on a case that has no field [z0]. *)
Definition call_z0_explicit : list value :=
  [VDict (delete "z0" full_fields); A'; l'; u'; opts'; N'; fparm'; H'; Cw';
   array1 [4%Z]; array1 [3%Z]; array1 [9%Z]].

(** The call with twelve arguments and an explicit [z0] of two zeros, on
    the full case. *)
Definition call_z0_zeros : list value :=
  [VDict full_fields; A'; l'; u'; opts'; N'; fparm'; H'; Cw';
   array1 [0%Z; 0%Z]; array1 [3%Z]; array1 [9%Z]].

(** [opf_args(ppc)] and [opf_args(ppc, A, l, u)]. *)
Definition call_1 : list value := [VDict full_fields].
Definition call_4 : list value := [VDict full_fields; A'; l'; u'].

(** [opf_args(baseMVA, bus, gen, branch, areas, gencost)]. *)
Definition call_6 : list value :=
  [VNum 100; VArray [1; 1] [1%Z]; VArray [1; 1] [1%Z]; VArray [1; 1] [1%Z];
   array_empty; VArray [1; 1] [2%Z]].

(** A call with eleven arguments. *)
Definition call_11 : list value :=
  [VDict full_fields; A'; l'; u'; opts'; N'; fparm'; H'; Cw';
   array1 [4%Z]; array1 [3%Z]].

(** The tuple the sample calls with nine arguments return, for the [A],
    [N], [H] and [Cw] of the call: the case with the explicit arguments
    stored in its fields, then the eleven other components. *)
Definition result_of (a n h w : value) : list value :=
  [VStruct (<["A" := a]> (<["l" := l']> (<["u" := u']> (<["N" := n]>
     (<["Cw" := w]> (<["fparm" := fparm']> (<["H" := h]> full_fields)))))));
   a; l'; u'; opts'; n; fparm'; h; w;
   array1 [7%Z]; array1 [3%Z]; array1 [9%Z]].

(** ** Vocabulary of the properties *)

(** A computation that logs nothing. *)
Definition silent {A : Type} (m : M A) : Prop := m.1 = [].

(** The first argument is a file name or a case struct. *)
Definition is_case (v : value) : bool := isinstance_str v || isinstance_dict v.

(** The arity leaves the cost matrix [N] out: one to five arguments after
    a case, six to ten with the matrices. *)
Definition leaves_N_out (args : list value) : bool :=
  match args with
  | [] => false
  | a :: _ =>
      if is_case a then bool_decide (length args ∈ [1; 2; 3; 4; 5])
      else bool_decide (length args ∈ [6; 7; 8; 9; 10])
  end.

(** What one line of the merge leaves in a local: the case must hold the
    field, and the local keeps its value exactly when [any] finds a true
    element in it. *)
Definition merged (x : value) (field : option value) (y : value) : Prop :=
  ∃ (a : bool) (v : value),
    any x = Return a ∧ field = Some v ∧ y = (if a then x else v).

(** The locals after the merge with the fields [d] of the loaded case. *)
Definition merge_spec (d : gmap string value) (lv lv' : locals) : Prop :=
  (∃ (a : bool) (v : value),
     any (Au lv) = Return a ∧ d !! "A" = Some v ∧
     if a then Au lv' = Au lv ∧ lbu lv' = lbu lv ∧ ubu lv' = ubu lv
     else Au lv' = v ∧ d !! "l" = Some (lbu lv') ∧ d !! "u" = Some (ubu lv')) ∧
  (∃ (a : bool) (v : value),
     any (N lv) = Return a ∧ d !! "N" = Some v ∧
     if a then N lv' = N lv ∧ Cw lv' = Cw lv
     else N lv' = v ∧ d !! "Cw" = Some (Cw lv')) ∧
  merged (H lv) (d !! "H") (H lv') ∧
  merged (fparm lv) (d !! "fparm") (fparm lv') ∧
  merged (z0 lv) (d !! "z0") (z0 lv') ∧
  merged (zl lv) (d !! "zl") (zl lv') ∧
  merged (zu lv) (d !! "zu") (zu lv') ∧
  merged (userfcn lv) (d !! "userfcn") (userfcn lv') ∧
  ppopt lv' = ppopt lv.

(** The records one check leaves in the log. *)
Definition report (c : bool) (msg : string) : list string :=
  if c then [msg] else [].

(** The argument counts the two branches accept (the lists of lines 101
    and 201). *)
Definition case_arities : list nat := [1; 2; 3; 4; 5; 9; 12].
Definition matrix_arities : list nat := [6; 7; 8; 9; 10; 14; 17].

(** The argument count is one the detected convention accepts. *)
Definition recognized (args : list value) : bool :=
  match args with
  | [] => false
  | a :: _ =>
      if is_case a then bool_decide (length args ∈ case_arities)
      else bool_decide (length args ∈ matrix_arities)
  end.

(** A loader that accepts a dict or a struct only. *)
Definition strict_loadcase (v : value) : outcome value :=
  match v with
  | VDict d | VStruct d => Return (VStruct d)
  | _ => Raise ValueError
  end.

(** [opf_args(baseMVA, bus, gen, branch, areas, gencost, A, l, u, ppopt,
    N, fparm, H, Cw, z0, zl, zu)]. *)
Definition call_17 : list value :=
  call_6 ++ [A'; l'; u'; opts'; N'; fparm'; H'; Cw';
             array1 [7%Z]; array1 [3%Z]; array1 [9%Z]].

(** [opf_args('case9', ppopt)]. *)
Definition call_file : list value := [VStr "case9"; opts'].

(** The call with nine arguments and an [A] without rows. *)
Definition call_A_empty : list value :=
  [VDict full_fields; VSparse 0 1 []; l'; u'; opts'; N'; fparm'; H'; Cw'].

(** A case whose [N] has no rows, and the call with nine arguments on it
    with an [N] without rows. *)
Definition fields_no_N : gmap string value :=
  <["N" := VSparse 0 1 []]> full_fields.

Definition call_no_N : list value :=
  [VDict fields_no_N; A'; l'; u'; opts'; VSparse 0 1 []; fparm'; H'; Cw'].

(** The call with nine arguments where [N], [fparm], [H] and [Cw] all
    have two rows. *)
Definition call_two_rows : list value :=
  [VDict full_fields; A'; l'; u'; opts'; VSparse 2 1 [(0, 0, 3%Z)];
   VArray [2; 1] [1%Z; 1%Z]; VSparse 2 1 [(0, 0, 5%Z)]; array1 [6%Z; 6%Z]].

(** The call with nine arguments and an [H] of three rows against an [N]
    of one row. *)
Definition call_H_3x1 : list value :=
  [VDict full_fields; A'; l'; u'; opts'; N'; fparm';
   VSparse 3 1 [(0, 0, 5%Z)]; Cw'].

(** The records the checks can log, in the order of the checks. *)
Definition check_messages : list string :=
  [msg_Cw; msg_fparm; msg_H; msg_A_N; msg_N_sparse; msg_H_sparse;
   msg_Au_sparse].

(** The log of a computation holds records of [S] only, each at most as
    often and in the same order as in [S]. *)
Definition logs_in_order {A : Type} (S : list string) (m : M A) : Prop :=
  m.1 `sublist_of` S.

(** The fields of the case the function reads unconditionally. *)
Definition base_keys : list string :=
  ["baseMVA"; "bus"; "gen"; "branch"; "gencost"].

(** The optional fields the merge looks up. *)
Definition optional_keys : list string :=
  ["A"; "N"; "H"; "fparm"; "z0"; "zl"; "zu"; "userfcn"].

(** The fields the end of the function may write. *)
Definition written_keys : list string :=
  ["A"; "l"; "u"; "N"; "Cw"; "fparm"; "H"; "z0"; "zl"; "zu"].

(** The positions of the argument tuple (and of the result) that the
    merge tests on their own, with the field each one falls back to. *)
Definition merged_positions : list (nat * string) :=
  [(1, "A"); (5, "N"); (6, "fparm"); (7, "H");
   (9, "z0"); (10, "zl"); (11, "zu")].

(** [if a: d[k] = x] on the fields of a case. *)
Definition put (a : bool) (k : string) (x : value) (d : gmap string value)
  : gmap string value :=
  if a then <[k := x]> d else d.

(** The fields of the returned case: the writes of lines 303-320 on the
    fields [d] of the loaded case, each guarded by what [any] found. *)
Definition stored (d : gmap string value) (areas : value) (lv : locals)
    (ar aA aN af aH a0 al au aU : bool) : gmap string value :=
  put aU "userfcn" (userfcn lv) (put au "zu" (zu lv) (put al "zl" (zl lv)
  (put a0 "z0" (z0 lv)
  (put (aN && aH) "H" (H lv) (put (aN && af) "fparm" (fparm lv)
  (put aN "Cw" (Cw lv) (put aN "N" (N lv)
  (put aA "u" (ubu lv) (put aA "l" (lbu lv) (put aA "A" (Au lv)
  (put ar "areas" areas d))))))))))).

(** The positions of the result whose value the returned case always
    holds, with the name of the field. *)
Definition stored_positions : list (nat * string) :=
  [(1, "A"); (2, "l"); (3, "u"); (5, "N"); (8, "Cw");
   (9, "z0"); (10, "zl"); (11, "zu")].

(** The test of line 288 as Python reads it: [A] has a row, and then
    [0 != Au.shape[1]]. *)
Definition A_N_test (a : value) (a0 : nat) : bool :=
  (0 <? a0) &&
  match shape_at a 1 with
  | Return a1 => negb (0 =? a1)
  | Raise _ => false
  end.

(** The records of the block under [if nw:] for the row counts [cw] of
    [Cw], [fk] of [fparm], [hk] of [H] and [a0] of [A]. *)
Definition cost_log (a n f h : value) (nw cw fk hk a0 : nat) (af aH : bool)
  : list string :=
  report (negb (cw =? nw)) msg_Cw
  ++ report (negb (Nat.land (Nat.b2n af) fk =? nw)) msg_fparm
  ++ report (aH && (negb (hk =? Nat.lor nw hk)
                    && negb (Nat.lor nw hk =? nw))) msg_H
  ++ report (A_N_test a a0) msg_A_N
  ++ report (negb (isinstance_spmatrix n)) msg_N_sparse
  ++ report (negb (isinstance_spmatrix h)) msg_H_sparse.



(** The call with nine arguments and an [H] of one row and five columns
    against an [N] of one row. *)
Definition call_H_1x5 : list value :=
  [VDict full_fields; A'; l'; u'; opts'; N'; fparm';
   VSparse 1 5 [(0, 0, 5%Z)]; Cw'].

Section OpfArgs.

(** [from ppoption import ppoption] and [from loadcase import loadcase]:
    the two collaborators are not part of this module. *)
Variable ppoption : value.
Variable loadcase : value → outcome value.

(** *** Lines 101-167: the calls that start with a case file or struct *)

(** The branch for one argument binds [casefile] to the whole argument
    tuple. *)
Definition unpack_case (args : list value) : M (value * locals) :=
  match args with
  | [casefile; Au; lbu; ubu; ppopt; N; fparm; H; Cw; z0; zl; zu] =>
      ret (casefile,
        {| Au := Au; lbu := lbu; ubu := ubu; ppopt := ppopt;
           N := N; fparm := fparm; H := H; Cw := Cw;
           z0 := z0; zl := zl; zu := zu; userfcn := array_empty |})
  | [casefile; Au; lbu; ubu; ppopt; N; fparm; H; Cw] =>
      ret (casefile,
        {| Au := Au; lbu := lbu; ubu := ubu; ppopt := ppopt;
           N := N; fparm := fparm; H := H; Cw := Cw;
           z0 := array_empty; zl := array_empty; zu := array_empty;
           userfcn := array_empty |})
  | [casefile; Au; lbu; ubu; ppopt] =>
      ret (casefile,
        {| Au := Au; lbu := lbu; ubu := ubu; ppopt := ppopt;
           N := VNone; fparm := array_empty; H := VNone; Cw := array_empty;
           z0 := array_empty; zl := array_empty; zu := array_empty;
           userfcn := array_empty |})
  | [casefile; Au; lbu; ubu] =>
      ret (casefile,
        {| Au := Au; lbu := lbu; ubu := ubu; ppopt := ppoption;
           N := VNone; fparm := array_empty; H := VNone; Cw := array_empty;
           z0 := array_empty; zl := array_empty; zu := array_empty;
           userfcn := array_empty |})
  | [casefile; userfcn; ppopt] =>
      ret (casefile,
        {| Au := VNone; lbu := array_empty; ubu := array_empty; ppopt := ppopt;
           N := VNone; fparm := array_empty; H := VNone; Cw := array_empty;
           z0 := array_empty; zl := array_empty; zu := array_empty;
           userfcn := userfcn |})
  | [casefile; ppopt] =>
      ret (casefile,
        {| Au := VNone; lbu := array_empty; ubu := array_empty; ppopt := ppopt;
           N := VNone; fparm := array_empty; H := VNone; Cw := array_empty;
           z0 := array_empty; zl := array_empty; zu := array_empty;
           userfcn := array_empty |})
  | [_] =>
      ret (VTuple args,
        {| Au := VNone; lbu := array_empty; ubu := array_empty; ppopt := ppoption;
           N := VNone; fparm := array_empty; H := VNone; Cw := array_empty;
           z0 := array_empty; zl := array_empty; zu := array_empty;
           userfcn := array_empty |})
  | _ =>
      logger_logger_error msg_arity;;
      (* [casefile] was never bound *)
      raise UnboundLocalError
  end.

(** *** Lines 169-191: loading the case and merging its fields *)

(** [if not any(x) & ppc.has_key(k)]: [&] binds tighter than [not], so
    the test is [not (any(x) & ppc.has_key(k))]. *)
Definition not_any_and_has_key (x ppc : value) (k : string) : M bool :=
  let* a := lift (any x) in
  let* h := lift (has_key ppc k) in
  ret (negb (a && h)).

(** One line of the merge, for a field read with [ppc[k]]. *)
Definition merge_item (x ppc : value) (k : string) : M value :=
  let* c := not_any_and_has_key x ppc k in
  if c then lift (getitem ppc k) else ret x.

Definition merge_case (ppc : value) (lv : locals) : M locals :=
  let* c := not_any_and_has_key (Au lv) ppc "A" in
  let* '(Au', lbu', ubu') :=
    (if c then
       let* a := lift (getitem ppc "A") in
       let* l := lift (getitem ppc "l") in
       let* u := lift (getitem ppc "u") in
       ret (a, l, u)
     else ret (Au lv, lbu lv, ubu lv)) in
  let* c := not_any_and_has_key (N lv) ppc "N" in
  let* '(N', Cw') :=
    (if c then
       let* n := lift (getitem ppc "N") in
       let* w := lift (getitem ppc "Cw") in
       ret (n, w)
     else ret (N lv, Cw lv)) in
  let* H' := merge_item (H lv) ppc "H" in
  let* fparm' := merge_item (fparm lv) ppc "fparm" in
  let* z0' := merge_item (z0 lv) ppc "z0" in
  let* zl' := merge_item (zl lv) ppc "zl" in
  let* zu' := merge_item (zu lv) ppc "zu" in
  let* c := not_any_and_has_key (userfcn lv) ppc "userfcn" in
  let* userfcn' := (if c then lift (getattr ppc "userfcn") else ret (userfcn lv)) in
  ret {| Au := Au'; lbu := lbu'; ubu := ubu'; ppopt := ppopt lv;
          N := N'; fparm := fparm'; H := H'; Cw := Cw';
          z0 := z0'; zl := zl'; zu := zu'; userfcn := userfcn' |}.

(** The first branch of the function: the case, its [areas] and the
    merged locals. *)
Definition from_case (args : list value) : M (value * value * locals) :=
  let* '(casefile, lv) := unpack_case args in
  let* ppc := lift (loadcase casefile) in
  let* baseMVA := lift (getattr ppc "baseMVA") in
  let* bus := lift (getattr ppc "bus") in
  let* gen := lift (getattr ppc "gen") in
  let* branch := lift (getattr ppc "branch") in
  let* gencost := lift (getattr ppc "gencost") in
  let* h := lift (has_key ppc "areas") in
  let* areas := (if h then lift (getattr ppc "areas") else ret array_empty) in
  let* lv' := merge_case ppc lv in
  ret (ppc, areas, lv').

(** *** Lines 201-276: the calls that pass the data matrices themselves *)

(** In the branches for 17, 14 and 10 arguments the assignment is split
    over two lines without a continuation, so its first line is an
    expression statement that reads [bus] before anything was assigned to
    it.  [want_ppc] is bound to 1 at the top of the function and never
    rebound, so the case dict is always built. *)
Definition from_matrices (args : list value) : M (value * value * locals) :=
  let* '(baseMVA, bus, gen, branch, areas, gencost, lv) :=
    match args with
    | [_; _; _; _; _; _; _; _; _; _; _; _; _; _; _; _; _] =>
        raise UnboundLocalError
    | [_; _; _; _; _; _; _; _; _; _; _; _; _; _] =>
        raise UnboundLocalError
    | [_; _; _; _; _; _; _; _; _; _] =>
        raise UnboundLocalError
    | [baseMVA; bus; gen; branch; areas; gencost; Au; lbu; ubu] =>
        ret (baseMVA, bus, gen, branch, areas, gencost,
          {| Au := Au; lbu := lbu; ubu := ubu; ppopt := ppoption;
             N := VNone; fparm := array_empty; H := VNone; Cw := array_empty;
             z0 := array_empty; zl := array_empty; zu := array_empty;
             userfcn := array_empty |})
    | [baseMVA; bus; gen; branch; areas; gencost; userfcn; ppopt] =>
        ret (baseMVA, bus, gen, branch, areas, gencost,
          {| Au := VNone; lbu := array_empty; ubu := array_empty;
             ppopt := ppopt;
             N := VNone; fparm := array_empty; H := VNone; Cw := array_empty;
             z0 := array_empty; zl := array_empty; zu := array_empty;
             userfcn := userfcn |})
    | [baseMVA; bus; gen; branch; areas; gencost; ppopt] =>
        ret (baseMVA, bus, gen, branch, areas, gencost,
          {| Au := VNone; lbu := array_empty; ubu := array_empty;
             ppopt := ppopt;
             N := VNone; fparm := array_empty; H := VNone; Cw := array_empty;
             z0 := array_empty; zl := array_empty; zu := array_empty;
             userfcn := array_empty |})
    | [baseMVA; bus; gen; branch; areas; gencost] =>
        ret (baseMVA, bus, gen, branch, areas, gencost,
          {| Au := VNone; lbu := array_empty; ubu := array_empty;
             ppopt := ppoption;
             N := VNone; fparm := array_empty; H := VNone; Cw := array_empty;
             z0 := array_empty; zl := array_empty; zu := array_empty;
             userfcn := array_empty |})
    | _ =>
        logger_logger_error msg_arity;;
        (* [bus] was never bound *)
        raise UnboundLocalError
    end in
  let ppc :=
    VDict (<["gencost" := gencost]> (<["branch" := branch]> (<["gen" := gen]>
          (<["bus" := bus]> (<["baseMVA" := baseMVA]> ∅))))) in
  ret (ppc, areas, lv).

(** *** Lines 277-299: the checks *)

Definition when (c : bool) (m : M unit) : M unit := if c then m else ret ().

(** The operators bind as Python binds them:
    - [any(fparm) & fparm.shape[0] != nw] is
      [(any(fparm) & fparm.shape[0]) != nw];
    - [H.shape[0] != nw | H.shape[0] != nw] is the chain
      [H.shape[0] != (nw | H.shape[0]) != nw];
    - [Au.shape[0] > 0 & N.shape[1] != Au.shape[1]] is the chain
      [Au.shape[0] > (0 & N.shape[1]) != Au.shape[1]], whose last operand
      is evaluated only when the first comparison holds. *)
Definition cost_checks (lv : locals) (nw : nat) : M unit :=
  let* cw := lift (shape_at (Cw lv) 0) in
  when (negb (cw =? nw)) (logger_error msg_Cw);;
  let* a := lift (any (fparm lv)) in
  let* f := lift (shape_at (fparm lv) 0) in
  when (negb (Nat.land (Nat.b2n a) f =? nw)) (logger_error msg_fparm);;
  let* a := lift (any (H lv)) in
  let* h := lift (shape_at (H lv) 0) in
  let* h' := lift (shape_at (H lv) 0) in
  when (a && (negb (h =? Nat.lor nw h') && negb (Nat.lor nw h' =? nw)))
    (logger_error msg_H);;
  let* a0 := lift (shape_at (Au lv) 0) in
  let* n1 := lift (shape_at (N lv) 1) in
  let* c :=
    (if Nat.land 0 n1 <? a0 then
       let* a1 := lift (shape_at (Au lv) 1) in
       ret (negb (Nat.land 0 n1 =? a1))
     else ret false) in
  when c (logger_error msg_A_N);;
  when (negb (isinstance_spmatrix (N lv))) (logger_error msg_N_sparse);;
  when (negb (isinstance_spmatrix (H lv))) (logger_error msg_H_sparse).

(** [nw = N.shape[0]], the block under [if nw:], and the check of [Au]. *)
Definition validate (lv : locals) : M unit :=
  let* nw := lift (shape_at (N lv) 0) in
  when (negb (nw =? 0)) (cost_checks lv nw);;
  when (negb (isinstance_spmatrix (Au lv))) (logger_error msg_Au_sparse).

(** *** Lines 300-324: default options, the fields of the case, the result *)

(** [if any(x): ppc[k] = x]. *)
Definition set_if_any (ppc : value) (k : string) (x : value) : M value :=
  let* a := lift (any x) in
  if a then lift (setitem ppc k x) else ret ppc.

Definition assemble (ppc areas : value) (lv : locals) : M (list value) :=
  let* n := lift (len (ppopt lv)) in
  let ppopt' := if n =? 0 then ppoption else ppopt lv in
  let* ppc := set_if_any ppc "areas" areas in
  let* a := lift (any (Au lv)) in
  let* ppc :=
    (if a then
       let* ppc := lift (setitem ppc "A" (Au lv)) in
       let* ppc := lift (setitem ppc "l" (lbu lv)) in
       lift (setitem ppc "u" (ubu lv))
     else ret ppc) in
  let* a := lift (any (N lv)) in
  let* ppc :=
    (if a then
       let* ppc := lift (setitem ppc "N" (N lv)) in
       let* ppc := lift (setitem ppc "Cw" (Cw lv)) in
       let* ppc := set_if_any ppc "fparm" (fparm lv) in
       set_if_any ppc "H" (H lv)
     else ret ppc) in
  let* ppc := set_if_any ppc "z0" (z0 lv) in
  let* ppc := set_if_any ppc "zl" (zl lv) in
  let* ppc := set_if_any ppc "zu" (zu lv) in
  let* ppc := set_if_any ppc "userfcn" (userfcn lv) in
  ret [ppc; Au lv; lbu lv; ubu lv; ppopt'; N lv; fparm lv; H lv; Cw lv;
       z0 lv; zl lv; zu lv].

(** *** The function *)

(** [baseMVA = args[0]] fails on an empty argument tuple; the type of the
    first argument then selects the convention. *)
Definition opf_args (args : list value) : M (list value) :=
  match args with
  | [] => raise IndexError
  | baseMVA :: _ =>
      let* '(ppc, areas, lv) :=
        (if isinstance_str baseMVA || isinstance_dict baseMVA
         then from_case args
         else from_matrices args) in
      validate lv;;
      assemble ppc areas lv
  end.

(** ** Reasoning about computations *)

Lemma bind_returns {A B : Type} (m : M A) (f : A → M B) l b :
  bind m f = (l, Return b) →
  ∃ l1 a l2, m = (l1, Return a) ∧ f a = (l2, Return b) ∧ l = l1 ++ l2.
Proof.
  destruct m as [l1 [a|e]]; simpl; [|discriminate].
  destruct (f a) as [l2 o] eqn:Hf. intros [= <- ->]. eauto 6.
Qed.

Lemma lift_returns {A : Type} (o : outcome A) l a :
  lift o = (l, Return a) → o = Return a ∧ l = [].
Proof. unfold lift. intros [= -> ->]. auto. Qed.

Lemma ret_returns {A : Type} (x : A) l a :
  ret x = (l, Return a) → x = a ∧ l = [].
Proof. unfold ret. intros [= -> ->]. auto. Qed.

Lemma silent_ret {A : Type} (a : A) : silent (ret a).
Proof. reflexivity. Qed.

Lemma silent_lift {A : Type} (o : outcome A) : silent (lift o).
Proof. reflexivity. Qed.

Lemma silent_raise {A : Type} (e : exn) : silent (@raise A e).
Proof. reflexivity. Qed.

Lemma silent_bind {A B : Type} (m : M A) (f : A → M B) :
  silent m → (∀ a, silent (f a)) → silent (bind m f).
Proof.
  unfold silent. destruct m as [l [a|e]]; simpl; intros ->; [|done].
  intros Hf. specialize (Hf a). destruct (f a). simpl in *. by subst.
Qed.

Lemma silent_if {A : Type} (c : bool) (m1 m2 : M A) :
  silent m1 → silent m2 → silent (if c then m1 else m2).
Proof. by destruct c. Qed.

(** A computation either returns or raises. *)
Lemma silent_cases {A : Type} (m : M A) :
  silent m → (∃ a, m = ([], Return a)) ∨ (∃ e, m = ([], Raise e)).
Proof.
  unfold silent. destruct m as [l [a|e]]; simpl; intros ->; eauto.
Qed.

Ltac silent_steps :=
  repeat first
    [ apply silent_ret | apply silent_lift | apply silent_raise
    | apply silent_bind; [|intros]
    | apply silent_if
    | match goal with
      | |- silent (match ?x with _ => _ end) => destruct x
      end ].

(** Take a returning computation apart, one statement at a time. *)
Ltac returns_inv H :=
  match type of H with
  | bind _ _ = (_, Return _) =>
      let l1 := fresh "l" in
      let a := fresh "a" in
      let l2 := fresh "l" in
      let H1 := fresh "Hm" in
      let H2 := fresh "Hk" in
      let E := fresh "El" in
      apply bind_returns in H as (l1 & a & l2 & H1 & H2 & E);
      returns_inv H1; cbv beta iota in H2; returns_inv H2
  | lift _ = (_, Return _) => apply lift_returns in H as [H ?]
  | ret _ = (_, Return _) => apply ret_returns in H as [H ?]
  | raise _ = (_, Return _) => discriminate H
  | (if ?c then _ else _) = (_, Return _) =>
      let E := fresh "Ec" in destruct c eqn:E; returns_inv H
  | _ => idtac
  end.

(** *** Nothing is logged before the checks *)

Lemma silent_not_any_and_has_key x ppc k : silent (not_any_and_has_key x ppc k).
Proof. unfold not_any_and_has_key. silent_steps. Qed.

Lemma silent_merge_item x ppc k : silent (merge_item x ppc k).
Proof.
  unfold merge_item. apply silent_bind; [apply silent_not_any_and_has_key|].
  intros. silent_steps.
Qed.

Lemma silent_merge_case ppc lv : silent (merge_case ppc lv).
Proof.
  unfold merge_case.
  repeat first
    [ apply silent_not_any_and_has_key | apply silent_merge_item
    | apply silent_ret | apply silent_lift
    | apply silent_bind; [|intros]
    | apply silent_if
    | match goal with
      | |- silent (match ?x with _ => _ end) => destruct x
      end ].
Qed.

Lemma silent_unpack_case args : silent (unpack_case args).
Proof.
  unfold unpack_case, logger_logger_error.
  do 13 (destruct args as [|? args]; [silent_steps|]). silent_steps.
Qed.

Lemma silent_from_case args : silent (from_case args).
Proof.
  unfold from_case.
  apply silent_bind; [apply silent_unpack_case|]. intros [casefile lv].
  repeat first
    [ apply silent_merge_case
    | apply silent_ret | apply silent_lift
    | apply silent_bind; [|intros]
    | apply silent_if ].
Qed.

Lemma silent_set_if_any ppc k x : silent (set_if_any ppc k x).
Proof. unfold set_if_any. silent_steps. Qed.

Lemma silent_assemble ppc areas lv : silent (assemble ppc areas lv).
Proof.
  unfold assemble.
  repeat first
    [ apply silent_set_if_any
    | apply silent_ret | apply silent_lift
    | apply silent_bind; [|intros]
    | apply silent_if ].
Qed.

(** *** The merge *)

Lemma not_any_and_has_key_returns x d k l c :
  not_any_and_has_key x (VStruct d) k = (l, Return c) →
  l = [] ∧ ∃ a, any x = Return a ∧
                c = negb (a && bool_decide (is_Some (d !! k))).
Proof.
  unfold not_any_and_has_key. intros Hr. returns_inv Hr.
  simplify_eq/=. eauto.
Qed.

Lemma merge_item_returns x d k l y :
  merge_item x (VStruct d) k = (l, Return y) →
  l = [] ∧ merged x (d !! k) y.
Proof.
  unfold merge_item, merged. intros Hr.
  apply bind_returns in Hr as (l1 & c & l2 & Hc & Hk & ->).
  apply not_any_and_has_key_returns in Hc as (-> & a & Ha & ->).
  destruct (d !! k) as [v|] eqn:Hd; simpl in Hk.
  - destruct a; simpl in Hk.
    + apply ret_returns in Hk as [<- ->]. eauto 6.
    + rewrite ?Hd in Hk. apply lift_returns in Hk as [[= <-] ->]. eauto 6.
  - rewrite andb_false_r in Hk. simpl in Hk. rewrite ?Hd in Hk.
    by apply lift_returns in Hk as [[=] _].
Qed.

Lemma getitem_returns d k v :
  getitem (VStruct d) k = Return v → d !! k = Some v.
Proof. simpl. by destruct (d !! k); intros [=]; subst. Qed.

Lemma getattr_returns ppc k v :
  getattr ppc k = Return v → ∃ d, ppc = VStruct d ∧ d !! k = Some v.
Proof.
  destruct ppc; simpl; try by intros [=].
  destruct (d !! k) eqn:E; intros [=]; subst. eauto.
Qed.

Lemma test_taken (a : bool) (o : option value) v :
  negb (a && bool_decide (is_Some o)) = true → o = Some v → a = false.
Proof. intros Hc ->. destruct a; [|done]. by rewrite bool_decide_true in Hc. Qed.

Lemma test_skipped (a : bool) (o : option value) :
  negb (a && bool_decide (is_Some o)) = false → a = true ∧ ∃ v, o = Some v.
Proof.
  destruct a; [|done]. simpl. intros Hc%negb_false_iff%bool_decide_eq_true.
  destruct Hc; eauto.
Qed.

Lemma merge_case_returns d lv l lv' :
  merge_case (VStruct d) lv = (l, Return lv') →
  l = [] ∧ merge_spec d lv lv'.
Proof.
  unfold merge_case. intros Hr.
  apply bind_returns in Hr as (l1 & c1 & ? & Hc1 & Hr & ->).
  apply not_any_and_has_key_returns in Hc1 as (-> & a1 & Ha1 & ->).
  apply bind_returns in Hr as (? & [[Au' lbu'] ubu'] & ? & HA & Hr & ->).
  apply bind_returns in Hr as (? & c2 & ? & Hc2 & Hr & ->).
  apply not_any_and_has_key_returns in Hc2 as (-> & a2 & Ha2 & ->).
  apply bind_returns in Hr as (? & [N' Cw'] & ? & HN & Hr & ->).
  apply bind_returns in Hr as (? & H' & ? & HH & Hr & ->).
  apply merge_item_returns in HH as [-> HH].
  apply bind_returns in Hr as (? & f' & ? & Hf & Hr & ->).
  apply merge_item_returns in Hf as [-> Hf].
  apply bind_returns in Hr as (? & z0' & ? & Hz0 & Hr & ->).
  apply merge_item_returns in Hz0 as [-> Hz0].
  apply bind_returns in Hr as (? & zl' & ? & Hzl & Hr & ->).
  apply merge_item_returns in Hzl as [-> Hzl].
  apply bind_returns in Hr as (? & zu' & ? & Hzu & Hr & ->).
  apply merge_item_returns in Hzu as [-> Hzu].
  apply bind_returns in Hr as (? & c3 & ? & Hc3 & Hr & ->).
  apply not_any_and_has_key_returns in Hc3 as (-> & a3 & Ha3 & ->).
  apply bind_returns in Hr as (? & u' & ? & HU & Hr & ->).
  apply ret_returns in Hr as [<- ->].
  returns_inv HA; returns_inv HN; returns_inv HU; subst.
  all: repeat match goal with
       | Hg : getitem (VStruct _) _ = Return _ |- _ =>
           apply getitem_returns in Hg
       | Hg : getattr (VStruct _) _ = Return _ |- _ =>
           apply getattr_returns in Hg as (? & [= <-] & Hg)
       end; simplify_eq.
  all: repeat match goal with
       | Hc : negb (_ && _) = true, Hd : _ !! _ = Some _ |- _ =>
           apply (test_taken _ _ _ Hc) in Hd as ?; clear Hc
       | Hc : negb (_ && _) = false |- _ =>
           apply test_skipped in Hc as (? & ? & ?)
       end; subst.
  all: split; [done|]; unfold merge_spec, merged; simpl.
  all: repeat split; try done.
  all: first [ exists false; eexists; by repeat split
             | exists true; eexists; by repeat split ].
Qed.

(** *** The checks *)

Lemma when_logger_returns c msg l u :
  when c (logger_error msg) = (l, Return u) → l = report c msg.
Proof. destruct c; simpl; by intros [= <-]. Qed.

Lemma cost_checks_returns lv nw l u :
  cost_checks lv nw = (l, Return u) →
  ∃ cw af f aH h a0 n1 c,
    shape_at (Cw lv) 0 = Return cw ∧
    any (fparm lv) = Return af ∧ shape_at (fparm lv) 0 = Return f ∧
    any (H lv) = Return aH ∧ shape_at (H lv) 0 = Return h ∧
    shape_at (Au lv) 0 = Return a0 ∧ shape_at (N lv) 1 = Return n1 ∧
    l = report (negb (cw =? nw)) msg_Cw
        ++ report (negb (Nat.land (Nat.b2n af) f =? nw)) msg_fparm
        ++ report (aH && (negb (h =? Nat.lor nw h)
                          && negb (Nat.lor nw h =? nw))) msg_H
        ++ report c msg_A_N
        ++ report (negb (isinstance_spmatrix (N lv))) msg_N_sparse
        ++ report (negb (isinstance_spmatrix (H lv))) msg_H_sparse.
Proof.
  unfold cost_checks. intros Hr.
  apply bind_returns in Hr as (? & cw & ? & [Hcw ->]%lift_returns & Hr & ->).
  apply bind_returns in Hr as (? & [] & ? & ->%when_logger_returns & Hr & ->).
  apply bind_returns in Hr as (? & af & ? & [Haf ->]%lift_returns & Hr & ->).
  apply bind_returns in Hr as (? & f & ? & [Hf ->]%lift_returns & Hr & ->).
  apply bind_returns in Hr as (? & [] & ? & ->%when_logger_returns & Hr & ->).
  apply bind_returns in Hr as (? & aH & ? & [HaH ->]%lift_returns & Hr & ->).
  apply bind_returns in Hr as (? & h & ? & [Hh ->]%lift_returns & Hr & ->).
  apply bind_returns in Hr as (? & h' & ? & [Hh' ->]%lift_returns & Hr & ->).
  apply bind_returns in Hr as (? & [] & ? & ->%when_logger_returns & Hr & ->).
  apply bind_returns in Hr as (? & a0 & ? & [Ha0 ->]%lift_returns & Hr & ->).
  apply bind_returns in Hr as (? & n1 & ? & [Hn1 ->]%lift_returns & Hr & ->).
  apply bind_returns in Hr as (lc & c & ? & Hc & Hr & ->).
  apply bind_returns in Hr as (? & [] & ? & ->%when_logger_returns & Hr & ->).
  apply bind_returns in Hr as (? & [] & ? & ->%when_logger_returns & Hr & ->).
  apply when_logger_returns in Hr as ->.
  assert (lc = []) as ->.
  { destruct (Nat.land 0 n1 <? a0).
    - apply bind_returns in Hc as (? & a1 & ? & [_ ->]%lift_returns & Hc & ->).
      by apply ret_returns in Hc as [_ ->].
    - by apply ret_returns in Hc as [_ ->]. }
  assert (h' = h) as -> by congruence.
  exists cw, af, f, aH, h, a0, n1, c. by repeat split.
Qed.

Lemma validate_returns lv l u :
  validate lv = (l, Return u) →
  ∃ nw inner,
    shape_at (N lv) 0 = Return nw ∧
    (if nw =? 0 then inner = []
     else cost_checks lv nw = (inner, Return ())) ∧
    l = inner ++ report (negb (isinstance_spmatrix (Au lv))) msg_Au_sparse.
Proof.
  unfold validate. intros Hr.
  apply bind_returns in Hr as (? & nw & ? & [Hnw ->]%lift_returns & Hr & ->).
  apply bind_returns in Hr as (inner & [] & ? & Hin & Hr & ->).
  apply when_logger_returns in Hr as ->.
  exists nw, inner. split; [done|]. split; [|done].
  unfold when in Hin. destruct (nw =? 0); simpl in Hin; [|done].
  by apply ret_returns in Hin as [_ ->].
Qed.

(** *** The two branches, and the end of the function *)

Lemma silent_returns {A : Type} (m : M A) l a :
  silent m → m = (l, Return a) → l = [].
Proof. unfold silent. by intros Hs ->. Qed.

Lemma from_matrices_returns args l ppc areas lv :
  from_matrices args = (l, Return (ppc, areas, lv)) → N lv = VNone.
Proof.
  unfold from_matrices. intros Hr.
  apply bind_returns
    in Hr as (? & [[[[[[? ?] ?] ?] ?] ?] lv0] & ? & Hm & Hk & ->).
  apply ret_returns in Hk as [[= _ _ ->] _].
  do 18 (destruct args as [|? args]; [by inversion Hm|]).
  by inversion Hm.
Qed.

Lemma from_case_returns args l ppc areas lv :
  from_case args = (l, Return (ppc, areas, lv)) →
  l = [] ∧ ∃ casefile lv0 d,
    unpack_case args = ([], Return (casefile, lv0)) ∧
    loadcase casefile = Return (VStruct d) ∧ ppc = VStruct d ∧
    areas = default array_empty (d !! "areas") ∧
    merge_spec d lv0 lv.
Proof.
  intros Hr. split; [by eapply silent_returns, Hr; apply silent_from_case|].
  unfold from_case in Hr.
  apply bind_returns in Hr as (l0 & [casefile lv0] & ? & Hu & Hr & ->).
  pose proof (silent_returns _ _ _ (silent_unpack_case args) Hu) as ->.
  apply bind_returns in Hr as (? & p & ? & [Hl ->]%lift_returns & Hr & ->).
  apply bind_returns in Hr as (? & ? & ? & [Hb ->]%lift_returns & Hr & ->).
  apply getattr_returns in Hb as (d & -> & _).
  do 4 apply bind_returns in Hr as (? & ? & ? & _ & Hr & ->).
  apply bind_returns in Hr as (? & h & ? & [[= <-] ->]%lift_returns & Hr & ->).
  apply bind_returns in Hr as (? & ar & ? & Har & Hr & ->).
  apply bind_returns in Hr as (? & lv' & ? & Hmg & Hr & ->).
  apply merge_case_returns in Hmg as [-> Hmg].
  apply ret_returns in Hr as [[= <- <- <-] _].
  exists casefile, lv0, d. do 3 (split; [done|]). split; [|done].
  destruct (d !! "areas") as [v|] eqn:Ed; simpl in Har.
  - apply lift_returns in Har as [Har _]. simpl in Har.
    rewrite Ed in Har. by injection Har as [= ->].
  - by apply ret_returns in Har as [-> _].
Qed.

Lemma assemble_returns ppc areas lv l vs :
  assemble ppc areas lv = (l, Return vs) →
  l = [] ∧ ∃ ppc' n,
    len (ppopt lv) = Return n ∧
    vs = [ppc'; Au lv; lbu lv; ubu lv;
          if n =? 0 then ppoption else ppopt lv;
          N lv; fparm lv; H lv; Cw lv; z0 lv; zl lv; zu lv].
Proof.
  intros Hr. split; [by eapply silent_returns, Hr; apply silent_assemble|].
  unfold assemble in Hr.
  apply bind_returns in Hr as (? & n & ? & [Hn ->]%lift_returns & Hr & ->).
  cbv zeta in Hr.
  do 8 apply bind_returns in Hr as (? & ? & ? & _ & Hr & ->).
  apply bind_returns in Hr as (? & ppc' & ? & _ & Hr & ->).
  apply ret_returns in Hr as [<- _]. eauto.
Qed.

(** A call that returns went through the case branch, and the records
    in its log are those of the checks. *)
Lemma opf_args_returns args l vs :
  opf_args args = (l, Return vs) →
  ∃ ppc areas lv,
    from_case args = ([], Return (ppc, areas, lv)) ∧
    validate lv = (l, Return ()) ∧
    assemble ppc areas lv = ([], Return vs).
Proof.
  unfold opf_args. destruct args as [|a rest]; [done|]. intros Hr.
  apply bind_returns in Hr as (l0 & [[ppc areas] lv] & ? & Hb & Hr & ->).
  apply bind_returns in Hr as (lc & [] & la & Hv & Ha & ->).
  destruct (isinstance_str a || isinstance_dict a).
  - pose proof (from_case_returns _ _ _ _ _ Hb) as [-> _].
    pose proof (assemble_returns _ _ _ _ _ Ha) as [-> _].
    exists ppc, areas, lv. by rewrite app_nil_r.
  - apply from_matrices_returns in Hb.
    apply validate_returns in Hv as (nw & ? & Hnw & _).
    by rewrite Hb in Hnw.
Qed.

(** *** Argument counts outside the accepted sets *)

(** A call whose argument count is not one of 1, 2, 3, 4, 5, 9, 12 when
    the first argument is a string or a case struct, nor one of 6, 7, 8,
    9, 10, 14, 17 otherwise, ends with an exception, logs nothing and
    returns no result. *)
Lemma arity_rejected (args : list value) :
  recognized args = false → ∃ e, opf_args args = ([], Raise e).
Proof.
  destruct args as [|a rest]; [by exists IndexError|].
  unfold recognized, opf_args. fold (is_case a).
  destruct (is_case a);
    do 17 (destruct rest as [|? rest];
           [first [ by intros [=] | by exists AttributeError ]|]);
    by exists AttributeError.
Qed.

(** *** Arities that leave [N] out *)

(** After the merge [any] has been applied to the [N] and the [Au] the
    argument list gave. *)
Lemma merge_spec_any d lv lv' :
  merge_spec d lv lv' →
  (∃ a, any (Au lv) = Return a) ∧ (∃ a, any (N lv) = Return a).
Proof. intros [(a & ? & ? & _) [(a' & ? & ? & _) _]]. eauto. Qed.

Lemma from_case_raises (args : list value) :
  (∀ casefile lv0,
     unpack_case args = ([], Return (casefile, lv0)) → N lv0 = VNone) →
  ∃ e, from_case args = ([], Raise e).
Proof.
  intros Hn.
  destruct (silent_cases _ (silent_from_case args))
    as [[[[ppc areas] lv] Hr]|[e He]]; [|by exists e].
  apply from_case_returns in Hr as (_ & c & lv0 & d & Hu & _ & _ & _ & Hm).
  apply merge_spec_any in Hm as [_ [a Ha]].
  by rewrite (Hn _ _ Hu) in Ha.
Qed.

(** C10. A call with six to ten arguments that passes the matrices
    themselves, and a call with one to five arguments that starts with a
    case (whether or not the loaded case embeds [N]), leaves [N] bound to
    [None]; such a call ends with an exception, logs nothing and returns
    no result. *)
Theorem no_result_without_N (args : list value) :
  leaves_N_out args = true → ∃ e, opf_args args = ([], Raise e).
Proof.
  destruct args as [|a rest]; [done|].
  unfold leaves_N_out, opf_args. fold (is_case a).
  destruct (is_case a).
  - intros Hlen.
    destruct (from_case_raises (a :: rest)) as [e He]; [|by exists e; rewrite He].
    intros c lv0 Hu.
    do 6 (destruct rest as [|? rest]; [by inversion Hu|]).
    exfalso. revert Hlen. clear. rewrite bool_decide_eq_true. simpl.
    rewrite !elem_of_cons, elem_of_nil. lia.
  - do 17 (destruct rest as [|? rest];
           [first [ by intros [=] | by exists AttributeError
                  | by exists UnboundLocalError ]|]).
    by exists AttributeError.
Qed.

(** *** What the checks do on a mismatch *)

Lemma elem_of_report msg c m : msg ∈ report c m ↔ c = true ∧ msg = m.
Proof.
  destruct c; simpl.
  - rewrite list_elem_of_singleton. naive_solver.
  - rewrite elem_of_nil. naive_solver.
Qed.

(** The locals behind a returned tuple, with the log of the checks. *)
Lemma returned_locals args l vs :
  opf_args args = (l, Return vs) →
  ∃ lv, validate lv = (l, Return ()) ∧
        vs !! 1 = Some (Au lv) ∧ vs !! 5 = Some (N lv) ∧
        vs !! 7 = Some (H lv) ∧ vs !! 8 = Some (Cw lv).
Proof.
  intros (ppc & areas & lv & _ & Hv & Ha)%opf_args_returns.
  apply assemble_returns in Ha as (_ & ? & ? & _ & ->). by exists lv.
Qed.

(** C4, as the code has it.  When a call returns a tuple in which [N] has
    [R] rows, [R] not zero, and [Cw] has a number of rows other than [R],
    the log holds the record of the mismatch between [N] and [Cw]: the
    mismatch is reported through the logger and the call goes on. *)
Theorem Cw_mismatch_is_logged (args : list value) l vs n w R k :
  opf_args args = (l, Return vs) →
  vs !! 5 = Some n → vs !! 8 = Some w →
  shape_at n 0 = Return R → R ≠ 0 →
  shape_at w 0 = Return k → k ≠ R →
  msg_Cw ∈ l.
Proof.
  intros (lv & Hv & _ & Hn & _ & Hw)%returned_locals Hn' Hw' HR HR0 Hk HkR.
  rewrite Hn in Hn'. rewrite Hw in Hw'. simplify_eq.
  apply validate_returns in Hv as (nw & inner & Hnw & Hin & ->).
  rewrite HR in Hnw. injection Hnw as [= <-].
  apply Nat.eqb_neq in HR0. rewrite HR0 in Hin.
  apply cost_checks_returns
    in Hin as (cw & ? & ? & ? & ? & ? & ? & ? & Hcw & _ & _ & _ & _ & _ & _ & ->).
  rewrite Hk in Hcw. injection Hcw as [= <-].
  rewrite !elem_of_app, elem_of_report. do 2 left. split; [|done].
  by apply negb_true_iff, Nat.eqb_neq.
Qed.

(** A call that returns may have logged the record of a mismatch between
    [N] and [H]; it did so only when [N] has rows, [H] holds a true
    element and the number of rows of [H] differs from the number of rows
    of [N]. *)
Lemma H_mismatch_is_logged (args : list value) l vs :
  opf_args args = (l, Return vs) →
  msg_H ∈ l →
  ∃ n h R k,
    vs !! 5 = Some n ∧ vs !! 7 = Some h ∧
    shape_at n 0 = Return R ∧ R ≠ 0 ∧
    any h = Return true ∧ shape_at h 0 = Return k ∧ k ≠ R.
Proof.
  intros (lv & Hv & _ & Hn & Hh & _)%returned_locals Hl.
  apply validate_returns in Hv as (nw & inner & Hnw & Hin & ->).
  exists (N lv), (H lv), nw.
  destruct (nw =? 0) eqn:Enw.
  { subst inner. simpl in Hl. by apply elem_of_report in Hl as [_ [=]]. }
  apply cost_checks_returns
    in Hin as (? & ? & ? & aH & h & ? & ? & ? & _ & _ & _ & HaH & Hs & _ & _ & ->).
  rewrite !elem_of_app, !elem_of_report in Hl.
  assert (aH && (negb (h =? Nat.lor nw h) && negb (Nat.lor nw h =? nw)) = true)
    as Hc by (clear -Hl; naive_solver).
  apply andb_true_iff in Hc as [-> [Hc1 Hc2]%andb_true_iff].
  apply negb_true_iff, Nat.eqb_neq in Hc1, Hc2.
  exists h. apply Nat.eqb_neq in Enw. repeat split; try done.
  intros ->. by rewrite Nat.lor_diag in Hc2.
Qed.

(** C6, as the code has it.  A call that returns with an [A] that is not
    a sparse matrix has logged that [Au] must be sparse; when [N] has rows,
    an [N] or an [H] that is not a sparse matrix has been logged as well.
    The wrong representation is reported through the logger and the call
    goes on. *)
Theorem dense_is_logged (args : list value) l vs a n h R :
  opf_args args = (l, Return vs) →
  vs !! 1 = Some a → vs !! 5 = Some n → vs !! 7 = Some h →
  shape_at n 0 = Return R →
  (isinstance_spmatrix a = false → msg_Au_sparse ∈ l) ∧
  (R ≠ 0 → isinstance_spmatrix n = false → msg_N_sparse ∈ l) ∧
  (R ≠ 0 → isinstance_spmatrix h = false → msg_H_sparse ∈ l).
Proof.
  intros (lv & Hv & Ha & Hn & Hh & _)%returned_locals Ha' Hn' Hh' HR.
  rewrite Ha in Ha'. rewrite Hn in Hn'. rewrite Hh in Hh'. simplify_eq.
  apply validate_returns in Hv as (nw & inner & Hnw & Hin & ->).
  rewrite HR in Hnw. injection Hnw as [= <-].
  split; [|split].
  - intros Hsp. rewrite elem_of_app, elem_of_report, Hsp. by right.
  - intros HR0%Nat.eqb_neq Hsp. rewrite HR0 in Hin.
    apply cost_checks_returns
      in Hin as (? & ? & ? & ? & ? & ? & ? & ? & _ & _ & _ & _ & _ & _ & _ & ->).
    rewrite !elem_of_app, !elem_of_report, Hsp. naive_solver.
  - intros HR0%Nat.eqb_neq Hsp. rewrite HR0 in Hin.
    apply cost_checks_returns
      in Hin as (? & ? & ? & ? & ? & ? & ? & ? & _ & _ & _ & _ & _ & _ & _ & ->).
    rewrite !elem_of_app, !elem_of_report, Hsp. naive_solver.
Qed.

(** *** The returned tuple *)

Lemma set_if_any_struct d k x l p :
  set_if_any (VStruct d) k x = (l, Return p) → ∃ d', p = VStruct d'.
Proof.
  unfold set_if_any. intros Hr.
  apply bind_returns in Hr as (? & a & ? & _ & Hr & ->).
  destruct a.
  - apply lift_returns in Hr as [[= <-] _]. eauto.
  - apply ret_returns in Hr as [<- _]. eauto.
Qed.

Lemma assemble_struct d areas lv l vs :
  assemble (VStruct d) areas lv = (l, Return vs) →
  ∃ d', vs !! 0 = Some (VStruct d').
Proof.
  unfold assemble. intros Hr.
  apply bind_returns in Hr as (? & n & ? & _ & Hr & ->). cbv zeta in Hr.
  apply bind_returns in Hr as (? & ? & ? & [d1 ->]%set_if_any_struct & Hr & ->).
  apply bind_returns in Hr as (? & a & ? & _ & Hr & ->).
  apply bind_returns in Hr as (? & p2 & ? & H2 & Hr & ->).
  assert (∃ d2, p2 = VStruct d2) as [d2 ->].
  { destruct a; [|apply ret_returns in H2 as [<- _]; eauto].
    apply bind_returns in H2 as (? & ? & ? & [[= <-] _]%lift_returns & H2 & ->).
    apply bind_returns in H2 as (? & ? & ? & [[= <-] _]%lift_returns & H2 & ->).
    apply lift_returns in H2 as [[= <-] _]. eauto. }
  apply bind_returns in Hr as (? & a' & ? & _ & Hr & ->).
  apply bind_returns in Hr as (? & p3 & ? & H3 & Hr & ->).
  assert (∃ d3, p3 = VStruct d3) as [d3 ->].
  { destruct a'; [|apply ret_returns in H3 as [<- _]; eauto].
    apply bind_returns in H3 as (? & ? & ? & [[= <-] _]%lift_returns & H3 & ->).
    apply bind_returns in H3 as (? & ? & ? & [[= <-] _]%lift_returns & H3 & ->).
    apply bind_returns in H3 as (? & ? & ? & [? ->]%set_if_any_struct & H3 & ->).
    by apply set_if_any_struct in H3. }
  apply bind_returns in Hr as (? & ? & ? & [? ->]%set_if_any_struct & Hr & ->).
  apply bind_returns in Hr as (? & ? & ? & [? ->]%set_if_any_struct & Hr & ->).
  apply bind_returns in Hr as (? & ? & ? & [? ->]%set_if_any_struct & Hr & ->).
  apply bind_returns in Hr as (? & ? & ? & [? ->]%set_if_any_struct & Hr & ->).
  apply ret_returns in Hr as [<- _]. eauto.
Qed.

Lemma unpack_case_with_N args c lv0 a :
  unpack_case args = ([], Return (c, lv0)) →
  any (N lv0) = Return a →
  length args = 12 ∨
  (length args = 9 ∧
   z0 lv0 = array_empty ∧ zl lv0 = array_empty ∧ zu lv0 = array_empty).
Proof.
  intros Hu Ha.
  do 13 (destruct args as [|? args];
         [first [ by inversion Hu; subst
                | by left
                | by right; inversion Hu ]|]).
  by inversion Hu.
Qed.

(** A call that returns after it was given options without any entry
    returns the default options. *)
Lemma empty_options_replaced (args : list value) l vs casefile lv0 :
  opf_args args = (l, Return vs) →
  unpack_case args = ([], Return (casefile, lv0)) →
  len (ppopt lv0) = Return 0 →
  vs !! 4 = Some ppoption.
Proof.
  intros (ppc & areas & lv & Hc & _ & Ha)%opf_args_returns Hu Hn.
  apply from_case_returns in Hc as (_ & c & lv1 & d & Hu' & _ & _ & _ & Hm).
  rewrite Hu in Hu'. injection Hu' as [= <- <-].
  destruct Hm as (_ & _ & _ & _ & _ & _ & _ & _ & Ho).
  apply assemble_returns in Ha as (_ & p & n & Hn' & ->).
  rewrite Ho, Hn in Hn'. by injection Hn' as [= <-].
Qed.

(** *** More on the calls that return *)

Lemma unpack_case_positions args c lv0 a :
  unpack_case args = ([], Return (c, lv0)) →
  any (N lv0) = Return a →
  args !! 0 = Some c ∧ args !! 1 = Some (Au lv0) ∧
  args !! 2 = Some (lbu lv0) ∧ args !! 3 = Some (ubu lv0) ∧
  args !! 4 = Some (ppopt lv0) ∧ args !! 5 = Some (N lv0) ∧
  args !! 6 = Some (fparm lv0) ∧ args !! 7 = Some (H lv0) ∧
  args !! 8 = Some (Cw lv0) ∧ userfcn lv0 = array_empty ∧
  ((length args = 12 ∧ args !! 9 = Some (z0 lv0) ∧
    args !! 10 = Some (zl lv0) ∧ args !! 11 = Some (zu lv0)) ∨
   (length args = 9 ∧ z0 lv0 = array_empty ∧ zl lv0 = array_empty ∧
    zu lv0 = array_empty)).
Proof.
  intros Hu Ha.
  do 13 (destruct args as [|? args];
         [first [ by inversion Hu; subst
                | inversion Hu; subst; simpl; repeat split; by auto 10 ]|]).
  by inversion Hu.
Qed.

Lemma from_case_base_fields args l d areas lv k :
  from_case args = (l, Return (VStruct d, areas, lv)) →
  k ∈ base_keys →
  is_Some (d !! k).
Proof.
  unfold from_case. intros Hr Hk.
  apply bind_returns in Hr as (l0 & [casefile lv0] & ? & Hu & Hr & ->).
  apply bind_returns in Hr as (? & p & ? & [Hl ->]%lift_returns & Hr & ->).
  apply bind_returns in Hr as (? & ? & ? & [H1 ->]%lift_returns & Hr & ->).
  apply bind_returns in Hr as (? & ? & ? & [H2 ->]%lift_returns & Hr & ->).
  apply bind_returns in Hr as (? & ? & ? & [H3 ->]%lift_returns & Hr & ->).
  apply bind_returns in Hr as (? & ? & ? & [H4 ->]%lift_returns & Hr & ->).
  apply bind_returns in Hr as (? & ? & ? & [H5 ->]%lift_returns & Hr & ->).
  do 3 apply bind_returns in Hr as (? & ? & ? & _ & Hr & ->).
  apply ret_returns in Hr as [[= -> _ _] _].
  apply getattr_returns in H1 as (? & [= <-] & H1).
  apply getattr_returns in H2 as (? & [= <-] & H2).
  apply getattr_returns in H3 as (? & [= <-] & H3).
  apply getattr_returns in H4 as (? & [= <-] & H4).
  apply getattr_returns in H5 as (? & [= <-] & H5).
  unfold base_keys in Hk. rewrite !elem_of_cons, elem_of_nil in Hk.
  destruct Hk as [->|[->|[->|[->|[->|[]]]]]]; eauto.
Qed.

(** Everything at once about a call that returns. *)
Lemma returning_call args l vs :
  opf_args args = (l, Return vs) →
  ∃ c lv0 d lv,
    unpack_case args = ([], Return (c, lv0)) ∧
    loadcase c = Return (VStruct d) ∧
    from_case args
    = ([], Return (VStruct d, default array_empty (d !! "areas"), lv)) ∧
    merge_spec d lv0 lv ∧
    validate lv = (l, Return ()) ∧
    assemble (VStruct d) (default array_empty (d !! "areas")) lv
    = ([], Return vs).
Proof.
  intros (ppc & areas & lv & Hc & Hv & Ha)%opf_args_returns.
  pose proof Hc as (_ & c & lv0 & d & Hu & Hl & -> & -> & Hm)%from_case_returns.
  by exists c, lv0, d, lv.
Qed.

(** *** Calls that pass the matrices themselves *)

(** X1. A call whose first argument is neither a string nor a dict never
    returns, whatever the number of its arguments, and logs nothing.  With
    10, 14 or 17 arguments the exception is the [UnboundLocalError] of the
    assignment split over two lines; with any other number it is an
    [AttributeError] ([N.shape] on [None], or [logger.logger]). *)
Theorem matrices_first_raises (a : value) (rest : list value) :
  is_case a = false →
  opf_args (a :: rest)
  = ([], Raise (if bool_decide (length (a :: rest) ∈ [10; 14; 17])
                then UnboundLocalError else AttributeError)).
Proof.
  intros Hc. unfold opf_args. fold (is_case a). rewrite Hc.
  do 17 (destruct rest as [|? rest]; [reflexivity|]).
  rewrite bool_decide_eq_false_2; [reflexivity|].
  rewrite !elem_of_cons, elem_of_nil. simpl. lia.
Qed.

(** *** The loader *)

(** X2. When the first argument is a string or a dict and the call has
    2, 3, 4, 5, 9 or 12 arguments, [casefile] is the first argument: an
    exception of the loader on it ends the call with that exception, and
    nothing is logged. *)
Theorem loader_failure_propagates (c : value) (rest : list value) e :
  is_case c = true →
  length rest ∈ [1; 2; 3; 4; 8; 11] →
  loadcase c = Raise e →
  opf_args (c :: rest) = ([], Raise e).
Proof.
  intros Hc Hlen He. unfold opf_args. fold (is_case c). rewrite Hc.
  unfold from_case.
  do 12 (destruct rest as [|? rest];
         [first [ by (cbv [unpack_case bind ret lift]; rewrite He)
                | exfalso; revert Hlen; clear;
                  rewrite !elem_of_cons, elem_of_nil; simpl; lia ]|]).
  exfalso; revert Hlen; clear. rewrite !elem_of_cons, elem_of_nil; simpl; lia.
Qed.

(** X3. With one argument the loader is applied to the argument tuple
    itself ([casefile = args]), not to its element: when the loader
    rejects the one-element tuple, the call ends with the exception of the
    loader. *)
Theorem one_argument_loads_the_tuple (c : value) e :
  is_case c = true →
  loadcase (VTuple [c]) = Raise e →
  opf_args [c] = ([], Raise e).
Proof.
  intros Hc He. unfold opf_args. fold (is_case c). rewrite Hc.
  unfold from_case. cbv [unpack_case bind ret lift]. by rewrite He.
Qed.

(** *** What the loaded case must hold *)

Lemma merged_is_Some x o y : merged x o y → is_Some o.
Proof. intros (? & ? & _ & -> & _). eauto. Qed.

(** X4. A call returns only when the loader gives, for the first
    argument, a case that holds [baseMVA], [bus], [gen], [branch],
    [gencost] and every one of the optional fields [A], [N], [H], [fparm],
    [z0], [zl], [zu], [userfcn]. *)
Theorem returning_needs_fields (args : list value) l vs :
  opf_args args = (l, Return vs) →
  ∃ c d,
    args !! 0 = Some c ∧ loadcase c = Return (VStruct d) ∧
    ∀ k, k ∈ base_keys ++ optional_keys → is_Some (d !! k).
Proof.
  intros (c & lv0 & d & lv & Hu & Hl & Hc & Hm & _ & _)%returning_call.
  pose proof Hm as [_ [a Ha]]%merge_spec_any.
  pose proof (unpack_case_positions _ _ _ _ Hu Ha) as (H0 & _).
  exists c, d. do 2 (split; [done|]). intros k [Hk|Hk]%elem_of_app.
  - by eapply from_case_base_fields.
  - destruct Hm as ((? & ? & _ & HA & _) & (? & ? & _ & HN & _) &
                    HH%merged_is_Some & Hf%merged_is_Some &
                    H0'%merged_is_Some & Hzl%merged_is_Some &
                    Hzu%merged_is_Some & HU%merged_is_Some & _).
    unfold optional_keys in Hk. rewrite !elem_of_cons, elem_of_nil in Hk.
    destruct Hk as [->|[->|[->|[->|[->|[->|[->|[->|[]]]]]]]]]; eauto.
Qed.

(** *** The merge, seen from the argument tuple *)

(** X5. In a call that returns, an explicit [A], [N], [fparm], [H],
    [z0], [zl] or [zu] in which [any] finds a true element is returned at
    the same position of the tuple. *)
Theorem explicit_kept (args : list value) l vs i x :
  opf_args args = (l, Return vs) →
  i ∈ merged_positions.*1 →
  args !! i = Some x → any x = Return true →
  vs !! i = Some x.
Proof.
  intros (c & lv0 & d & lv & Hu & Hl & Hc & Hm & _ & Has)%returning_call Hi Hx Hany.
  apply assemble_returns in Has as (_ & p & n & _ & ->).
  pose proof Hm as [_ [a Ha]]%merge_spec_any.
  pose proof (unpack_case_positions _ _ _ _ Hu Ha)
    as (_ & P1 & _ & _ & _ & P5 & P6 & P7 & _ & _ & Pz).
  destruct Hm as ((aA & ? & HaA & _ & HA) & (aN & ? & HaN & _ & HN) &
                  (aH & ? & HaH & _ & HH) & (af & ? & Haf & _ & Hf) &
                  (a0 & ? & Ha0 & _ & H0) & (al & ? & Hal & _ & Hzl) &
                  (au & ? & Hau & _ & Hzu) & _).
  simpl in Hi. rewrite !elem_of_cons, elem_of_nil in Hi.
  destruct Hi as [->|[->|[->|[->|[->|[->|[->|[]]]]]]]]; simpl.
  - rewrite P1 in Hx. simplify_eq. rewrite Hany in HaA. simplify_eq.
    by destruct HA as (-> & _).
  - rewrite P5 in Hx. simplify_eq. rewrite Hany in HaN. simplify_eq.
    by destruct HN as (-> & _).
  - rewrite P6 in Hx. simplify_eq. rewrite Hany in Haf.
      simplify_eq. simpl in *. congruence.
  - rewrite P7 in Hx. simplify_eq. rewrite Hany in HaH.
      simplify_eq. simpl in *. congruence.
  - destruct Pz as [(_ & Pz & _ & _)|(Hlen & _)].
    + rewrite Pz in Hx. simplify_eq. rewrite Hany in Ha0.
      simplify_eq. simpl in *. congruence.
    + apply lookup_lt_Some in Hx. lia.
  - destruct Pz as [(_ & _ & Pz & _)|(Hlen & _)].
    + rewrite Pz in Hx. simplify_eq. rewrite Hany in Hal.
      simplify_eq. simpl in *. congruence.
    + apply lookup_lt_Some in Hx. lia.
  - destruct Pz as [(_ & _ & _ & Pz)|(Hlen & _)].
    + rewrite Pz in Hx. simplify_eq. rewrite Hany in Hau.
      simplify_eq. simpl in *. congruence.
    + apply lookup_lt_Some in Hx. lia.
Qed.

(** The loaded case of a call that returns is the one the loader gives
    for the first argument. *)
Lemma returning_call_from args l vs c d :
  opf_args args = (l, Return vs) →
  args !! 0 = Some c → loadcase c = Return (VStruct d) →
  ∃ lv0 lv n,
    unpack_case args = ([], Return (c, lv0)) ∧
    merge_spec d lv0 lv ∧
    len (ppopt lv) = Return n ∧
    vs !! 1 = Some (Au lv) ∧ vs !! 2 = Some (lbu lv) ∧
    vs !! 3 = Some (ubu lv) ∧
    vs !! 4 = Some (if n =? 0 then ppoption else ppopt lv) ∧
    vs !! 5 = Some (N lv) ∧ vs !! 6 = Some (fparm lv) ∧
    vs !! 7 = Some (H lv) ∧ vs !! 8 = Some (Cw lv) ∧
    vs !! 9 = Some (z0 lv) ∧ vs !! 10 = Some (zl lv) ∧
    vs !! 11 = Some (zu lv).
Proof.
  intros (c' & lv0 & d' & lv & Hu & Hl & _ & Hm & _ & Has)%returning_call H0 Hd.
  apply assemble_returns in Has as (_ & p & n & Hn & ->).
  pose proof Hm as [_ [a Ha]]%merge_spec_any.
  pose proof (unpack_case_positions _ _ _ _ Hu Ha) as (P0 & _).
  rewrite H0 in P0. injection P0 as [= <-].
  rewrite Hd in Hl. injection Hl as [= <-].
  exists lv0, lv, n. do 3 (split; [done|]). by repeat split.
Qed.

(** X6. In a call that returns, an explicit [A], [N], [fparm], [H],
    [z0], [zl] or [zu] in which [any] finds no true element (an empty
    array, an array of zeros, a sparse matrix without entries) is replaced
    by the field of that name in the loaded case. *)
Theorem explicit_replaced (args : list value) l vs c d i k x :
  opf_args args = (l, Return vs) →
  args !! 0 = Some c → loadcase c = Return (VStruct d) →
  (i, k) ∈ merged_positions →
  args !! i = Some x → any x = Return false →
  vs !! i = d !! k.
Proof.
  intros Hr H0 Hd Hi Hx Hany.
  destruct (returning_call_from _ _ _ _ _ Hr H0 Hd)
    as (lv0 & lv & n & Hu & Hm & _ & V1 & _ & _ & _ & V5 & V6 & V7 & _ &
        V9 & V10 & V11).
  pose proof Hm as [_ [a Ha]]%merge_spec_any.
  pose proof (unpack_case_positions _ _ _ _ Hu Ha)
    as (_ & P1 & _ & _ & _ & P5 & P6 & P7 & _ & _ & Pz).
  destruct Hm as ((aA & ? & HaA & EA & HA) & (aN & ? & HaN & EN & HN) &
                  (aH & ? & HaH & EH & HH) & (af & ? & Haf & Ef & Hf) &
                  (a0 & ? & Ha0 & E0 & Hz0) & (al & ? & Hal & El & Hzl) &
                  (au & ? & Hau & Eu & Hzu) & _).
  unfold merged_positions in Hi. rewrite !elem_of_cons, elem_of_nil in Hi.
  destruct Hi as [[= -> ->]|[[= -> ->]|[[= -> ->]|[[= -> ->]|
                 [[= -> ->]|[[= -> ->]|[[= -> ->]|[]]]]]]]].
  - rewrite P1 in Hx. simplify_eq. rewrite Hany in HaA. simplify_eq.
    rewrite V1, EA. by destruct HA as (-> & _).
  - rewrite P5 in Hx. simplify_eq. rewrite Hany in HaN. simplify_eq.
    rewrite V5, EN. by destruct HN as (-> & _).
  - rewrite P6 in Hx. simplify_eq. rewrite Hany in Haf. rewrite V6.
    simplify_eq. simpl in *. congruence.
  - rewrite P7 in Hx. simplify_eq. rewrite Hany in HaH. rewrite V7.
    simplify_eq. simpl in *. congruence.
  - destruct Pz as [(_ & Pz & _ & _)|(Hlen & _)].
    + rewrite Pz in Hx. simplify_eq. rewrite Hany in Ha0. rewrite V9.
      simplify_eq. simpl in *. congruence.
    + apply lookup_lt_Some in Hx. lia.
  - destruct Pz as [(_ & _ & Pz & _)|(Hlen & _)].
    + rewrite Pz in Hx. simplify_eq. rewrite Hany in Hal. rewrite V10.
      simplify_eq. simpl in *. congruence.
    + apply lookup_lt_Some in Hx. lia.
  - destruct Pz as [(_ & _ & _ & Pz)|(Hlen & _)].
    + rewrite Pz in Hx. simplify_eq. rewrite Hany in Hau. rewrite V11.
      simplify_eq. simpl in *. congruence.
    + apply lookup_lt_Some in Hx. lia.
Qed.

(** X7. The bounds follow [A]: in a call that returns, the explicit [l]
    and [u] are returned when [any] finds a true element in the explicit
    [A]; otherwise the [l] and [u] of the loaded case are returned,
    whatever was passed for them. *)
Theorem bounds_follow_A (args : list value) l vs c d a b :
  opf_args args = (l, Return vs) →
  args !! 0 = Some c → loadcase c = Return (VStruct d) →
  args !! 1 = Some a → any a = Return b →
  if b then vs !! 2 = args !! 2 ∧ vs !! 3 = args !! 3
  else vs !! 2 = d !! "l" ∧ vs !! 3 = d !! "u".
Proof.
  intros Hr H0 Hd Hx Hany.
  destruct (returning_call_from _ _ _ _ _ Hr H0 Hd)
    as (lv0 & lv & n & Hu & Hm & _ & _ & V2 & V3 & _).
  pose proof Hm as [_ [a' Ha]]%merge_spec_any.
  pose proof (unpack_case_positions _ _ _ _ Hu Ha)
    as (_ & P1 & P2 & P3 & _).
  destruct Hm as ((aA & ? & HaA & EA & HA) & _).
  rewrite P1 in Hx. simplify_eq. rewrite Hany in HaA. simplify_eq.
  rewrite V2, V3, P2, P3.
  destruct aA.
  - by destruct HA as (_ & -> & ->).
  - by destruct HA as (_ & -> & ->).
Qed.

(** X8. [Cw] follows [N]: in a call that returns, the explicit [Cw] is
    returned when [any] finds a true element in the explicit [N];
    otherwise the [Cw] of the loaded case is returned, whatever was
    passed for it. *)
Theorem Cw_follows_N (args : list value) l vs c d n b :
  opf_args args = (l, Return vs) →
  args !! 0 = Some c → loadcase c = Return (VStruct d) →
  args !! 5 = Some n → any n = Return b →
  vs !! 8 = if b then args !! 8 else d !! "Cw".
Proof.
  intros Hr H0 Hd Hx Hany.
  destruct (returning_call_from _ _ _ _ _ Hr H0 Hd)
    as (lv0 & lv & k & Hu & Hm & _ & _ & _ & _ & _ & _ & _ & _ & V8 & _).
  pose proof Hm as [_ [a' Ha]]%merge_spec_any.
  pose proof (unpack_case_positions _ _ _ _ Hu Ha)
    as (_ & _ & _ & _ & _ & P5 & _ & _ & P8 & _).
  destruct Hm as (_ & (aN & ? & HaN & EN & HN) & _).
  rewrite P5 in Hx. simplify_eq. rewrite Hany in HaN. simplify_eq.
  rewrite V8, P8.
  destruct aN.
  - by destruct HN as (_ & ->).
  - by destruct HN as (_ & ->).
Qed.

(** X9. A call with nine arguments that returns takes [z0], [zl] and
    [zu] from the fields of the loaded case. *)
Theorem omitted_come_from_case (args : list value) l vs c d :
  opf_args args = (l, Return vs) →
  args !! 0 = Some c → loadcase c = Return (VStruct d) →
  length args = 9 →
  vs !! 9 = d !! "z0" ∧ vs !! 10 = d !! "zl" ∧ vs !! 11 = d !! "zu".
Proof.
  intros Hr H0 Hd Hlen.
  destruct (returning_call_from _ _ _ _ _ Hr H0 Hd)
    as (lv0 & lv & n & Hu & Hm & _ & _ & _ & _ & _ & _ & _ & _ & _ &
        V9 & V10 & V11).
  pose proof Hm as [_ [a' Ha]]%merge_spec_any.
  pose proof (unpack_case_positions _ _ _ _ Hu Ha)
    as (_ & _ & _ & _ & _ & _ & _ & _ & _ & _ & Pz).
  destruct Pz as [(Hl12 & _)|(_ & Z0 & Zl & Zu)]; [lia|].
  destruct Hm as (_ & _ & _ & _ &
                  (a0 & ? & Ha0 & E0 & Hz0) & (al & ? & Hal & El & Hzl) &
                  (au & ? & Hau & Eu & Hzu) & _).
  rewrite Z0 in Ha0, Hz0. rewrite Zl in Hal, Hzl. rewrite Zu in Hau, Hzu.
  simpl in Ha0, Hal, Hau. rewrite V9, V10, V11.
  simplify_eq. simpl in *. by repeat split; congruence.
Qed.

(** X10. In a call that returns, the options passed have a length; the
    tuple holds the default options when that length is zero and the
    options passed otherwise. *)
Theorem options_returned (args : list value) l vs o :
  opf_args args = (l, Return vs) →
  args !! 4 = Some o →
  ∃ n, len o = Return n ∧
       vs !! 4 = Some (if n =? 0 then ppoption else o).
Proof.
  intros (c & lv0 & d & lv & Hu & Hl & _ & Hm & _ & Has)%returning_call Ho.
  apply assemble_returns in Has as (_ & p & n & Hn & ->).
  pose proof Hm as [_ [a Ha]]%merge_spec_any.
  pose proof (unpack_case_positions _ _ _ _ Hu Ha)
    as (_ & _ & _ & _ & P4 & _).
  destruct Hm as (_ & _ & _ & _ & _ & _ & _ & _ & Hp).
  rewrite P4 in Ho. injection Ho as [= <-]. rewrite Hp in Hn.
  exists n. split; [done|]. simpl. by rewrite Hp.
Qed.

(** *** The returned case *)

Lemma set_if_any_returns d k x l p :
  set_if_any (VStruct d) k x = (l, Return p) →
  ∃ a, any x = Return a ∧ p = VStruct (put a k x d).
Proof.
  unfold set_if_any. intros Hr.
  apply bind_returns in Hr as (? & a & ? & [Ha _]%lift_returns & Hr & ->).
  exists a. split; [done|]. destruct a.
  - by apply lift_returns in Hr as [[= <-] _].
  - by apply ret_returns in Hr as [<- _].
Qed.

Lemma assemble_stored d areas lv l vs :
  assemble (VStruct d) areas lv = (l, Return vs) →
  ∃ ar aA aN af aH a0 al au aU,
    any areas = Return ar ∧ any (Au lv) = Return aA ∧
    any (N lv) = Return aN ∧
    (aN = true → any (fparm lv) = Return af ∧ any (H lv) = Return aH) ∧
    any (z0 lv) = Return a0 ∧ any (zl lv) = Return al ∧
    any (zu lv) = Return au ∧ any (userfcn lv) = Return aU ∧
    vs !! 0 = Some (VStruct (stored d areas lv ar aA aN af aH a0 al au aU)).
Proof.
  unfold assemble. intros Hr.
  apply bind_returns in Hr as (? & n & ? & _ & Hr & ->). cbv zeta in Hr.
  apply bind_returns
    in Hr as (? & ? & ? & (ar & Har & ->)%set_if_any_returns & Hr & ->).
  apply bind_returns in Hr as (? & aA & ? & [HaA _]%lift_returns & Hr & ->).
  apply bind_returns in Hr as (? & p2 & ? & H2 & Hr & ->).
  assert (p2 = VStruct (put aA "u" (ubu lv) (put aA "l" (lbu lv)
            (put aA "A" (Au lv) (put ar "areas" areas d))))) as ->.
  { destruct aA; [|by apply ret_returns in H2 as [<- _]].
    apply bind_returns in H2 as (? & ? & ? & [[= <-] _]%lift_returns & H2 & ->).
    apply bind_returns in H2 as (? & ? & ? & [[= <-] _]%lift_returns & H2 & ->).
    by apply lift_returns in H2 as [[= <-] _]. }
  apply bind_returns in Hr as (? & aN & ? & [HaN _]%lift_returns & Hr & ->).
  apply bind_returns in Hr as (? & p3 & ? & H3 & Hr & ->).
  assert (∃ af aH,
    (aN = true → any (fparm lv) = Return af ∧ any (H lv) = Return aH) ∧
    p3 = VStruct (put (aN && aH) "H" (H lv) (put (aN && af) "fparm" (fparm lv)
           (put aN "Cw" (Cw lv) (put aN "N" (N lv)
           (put aA "u" (ubu lv) (put aA "l" (lbu lv)
           (put aA "A" (Au lv) (put ar "areas" areas d)))))))))
    as (af & aH & Hcost & ->).
  { destruct aN.
    - apply bind_returns
        in H3 as (? & ? & ? & [[= <-] _]%lift_returns & H3 & ->).
      apply bind_returns
        in H3 as (? & ? & ? & [[= <-] _]%lift_returns & H3 & ->).
      apply bind_returns
        in H3 as (? & ? & ? & (af & Haf & ->)%set_if_any_returns & H3 & ->).
      apply set_if_any_returns in H3 as (aH & HaH & ->).
      by exists af, aH.
    - apply ret_returns in H3 as [<- _]. by exists false, false. }
  apply bind_returns
    in Hr as (? & ? & ? & (a0 & Ha0 & ->)%set_if_any_returns & Hr & ->).
  apply bind_returns
    in Hr as (? & ? & ? & (al & Hal & ->)%set_if_any_returns & Hr & ->).
  apply bind_returns
    in Hr as (? & ? & ? & (au & Hau & ->)%set_if_any_returns & Hr & ->).
  apply bind_returns
    in Hr as (? & ? & ? & (aU & HaU & ->)%set_if_any_returns & Hr & ->).
  apply ret_returns in Hr as [<- _].
  by exists ar, aA, aN, af, aH, a0, al, au, aU.
Qed.

Lemma lookup_put a k x (d : gmap string value) j :
  put a k x d !! j = if a && bool_decide (k = j) then Some x else d !! j.
Proof.
  unfold put. destruct a; simpl; [|done].
  case_bool_decide; subst; [apply lookup_insert_eq|by apply lookup_insert_ne].
Qed.

(** The returned tuple of a call that returns, with what the merge left
    in the locals and what [any] found at the end. *)
Lemma returned_case args l vs c d :
  opf_args args = (l, Return vs) →
  args !! 0 = Some c → loadcase c = Return (VStruct d) →
  ∃ lv0 lv ar aA aN af aH a0 al au aU o,
    unpack_case args = ([], Return (c, lv0)) ∧
    merge_spec d lv0 lv ∧
    any (default array_empty (d !! "areas")) = Return ar ∧
    any (Au lv) = Return aA ∧ any (N lv) = Return aN ∧
    (aN = true → any (fparm lv) = Return af ∧ any (H lv) = Return aH) ∧
    any (z0 lv) = Return a0 ∧ any (zl lv) = Return al ∧
    any (zu lv) = Return au ∧ any (userfcn lv) = Return aU ∧
    vs = [VStruct (stored d (default array_empty (d !! "areas")) lv
                     ar aA aN af aH a0 al au aU);
          Au lv; lbu lv; ubu lv; o; N lv; fparm lv; H lv; Cw lv;
          z0 lv; zl lv; zu lv].
Proof.
  intros (c' & lv0 & d' & lv & Hu & Hl & _ & Hm & _ & Has)%returning_call H0 Hd.
  pose proof Hm as [_ [a Ha]]%merge_spec_any.
  pose proof (unpack_case_positions _ _ _ _ Hu Ha) as (P0 & _).
  rewrite H0 in P0. injection P0 as [= <-].
  rewrite Hd in Hl. injection Hl as [= <-].
  pose proof (assemble_stored _ _ _ _ _ Has)
    as (ar & aA & aN & af & aH & a0 & al & au & aU &
        ? & ? & ? & ? & ? & ? & ? & ? & Hs).
  apply assemble_returns in Has as (_ & p & n & _ & ->).
  injection Hs as [= ->].
  exists lv0, lv, ar, aA, aN, af, aH, a0, al, au, aU.
  eexists. by do 10 (split; [done|]).
Qed.

(** What a merge line leaves when [any] finds nothing in the result. *)
Lemma merged_without_true x o y :
  merged x o y → any y = Return false → o = Some y.
Proof.
  intros (a & v & Ha & -> & ->) Hy. destruct a; [|done]. congruence.
Qed.

(** X11. The returned case keeps every field of the loaded case whose
    name is not [A], [l], [u], [N], [Cw], [fparm], [H], [z0], [zl] or [zu]:
    in particular the five data matrices, [areas] and [userfcn]. *)
Theorem case_keeps_other_fields (args : list value) l vs c d k :
  opf_args args = (l, Return vs) →
  args !! 0 = Some c → loadcase c = Return (VStruct d) →
  k ∉ written_keys →
  ∃ d', vs !! 0 = Some (VStruct d') ∧ d' !! k = d !! k.
Proof.
  intros Hr H0 Hd Hk.
  destruct (returned_case _ _ _ _ _ Hr H0 Hd)
    as (lv0 & lv & ar & aA & aN & af & aH & a0 & al & au & aU & o &
        Hu & Hm & Har & _ & _ & _ & _ & _ & _ & HaU & ->).
  eexists. split; [done|].
  unfold written_keys in Hk. rewrite !not_elem_of_cons in Hk.
  destruct Hk as (? & ? & ? & ? & ? & ? & ? & ? & ? & ? & _).
  unfold stored. rewrite !lookup_put.
  rewrite (bool_decide_eq_false_2 ("A" = k)), (bool_decide_eq_false_2 ("l" = k)),
    (bool_decide_eq_false_2 ("u" = k)), (bool_decide_eq_false_2 ("N" = k)),
    (bool_decide_eq_false_2 ("Cw" = k)), (bool_decide_eq_false_2 ("fparm" = k)),
    (bool_decide_eq_false_2 ("H" = k)), (bool_decide_eq_false_2 ("z0" = k)),
    (bool_decide_eq_false_2 ("zl" = k)), (bool_decide_eq_false_2 ("zu" = k)),
    !andb_false_r by congruence.
  pose proof Hm as [_ [a Ha]]%merge_spec_any.
  pose proof (unpack_case_positions _ _ _ _ Hu Ha)
    as (_ & _ & _ & _ & _ & _ & _ & _ & _ & PU & _).
  destruct Hm as (_ & _ & _ & _ & _ & _ & _ & (a' & v & HU & EU & HU') & _).
  rewrite PU in HU, HU'. simpl in HU. injection HU as [= <-]. simpl in HU'.
  repeat case_bool_decide; subst; simpl; try done.
  - rewrite andb_true_r, andb_false_r. by destruct aU.
  - rewrite andb_true_r, andb_false_r. destruct ar; [|done].
    destruct (d !! "areas"); [done|discriminate].
  - by rewrite !andb_false_r.
Qed.

(** X12. The returned case agrees with the returned tuple: its fields
    [A], [l], [u], [N], [Cw], [z0], [zl], [zu] hold the components at the
    positions 1, 2, 3, 5, 8, 9, 10, 11. *)
Theorem case_holds_returned_components (args : list value) l vs c d i k :
  opf_args args = (l, Return vs) →
  args !! 0 = Some c → loadcase c = Return (VStruct d) →
  (i, k) ∈ stored_positions →
  ∃ d', vs !! 0 = Some (VStruct d') ∧ d' !! k = vs !! i.
Proof.
  intros Hr H0 Hd Hi.
  destruct (returned_case _ _ _ _ _ Hr H0 Hd)
    as (lv0 & lv & ar & aA & aN & af & aH & a0 & al & au & aU & o &
        Hu & Hm & Har & HaA & HaN & _ & Ha0 & Hal & Hau & HaU & ->).
  eexists. split; [done|].
  destruct Hm as ((bA & vA & HbA & EA & HA) & (bN & vN & HbN & EN & HN) &
                  _ & _ & Hz0 & Hzl & Hzu & _).
  unfold stored_positions in Hi. rewrite !elem_of_cons, elem_of_nil in Hi.
  unfold stored. rewrite !lookup_put.
  destruct Hi as [[= -> ->]|[[= -> ->]|[[= -> ->]|[[= -> ->]|
                 [[= -> ->]|[[= -> ->]|[[= -> ->]|[[= -> ->]|[]]]]]]]]];
    repeat (case_bool_decide; [|done]); repeat (case_bool_decide; [done|]);
    simpl; rewrite ?andb_false_r, ?andb_true_r.
  1-3: destruct aA; [done|]; destruct bA;
         [destruct HA as (HA & _); rewrite HA in HaA; congruence
         |destruct HA as (HA & ? & ?); congruence].
  1-2: destruct aN; [done|]; destruct bN;
         [destruct HN as (HN & _); rewrite HN in HaN; congruence
         |destruct HN as (HN & ?); congruence].
  - destruct a0; [done|]. by eapply merged_without_true.
  - destruct al; [done|]. by eapply merged_without_true.
  - destruct au; [done|]. by eapply merged_without_true.
Qed.

(** X13. When [any] finds a true element in the returned [N], the fields
    [fparm] and [H] of the returned case hold the returned [fparm] and
    [H]. *)
Theorem cost_fields_stored_with_N (args : list value) l vs c d n :
  opf_args args = (l, Return vs) →
  args !! 0 = Some c → loadcase c = Return (VStruct d) →
  vs !! 5 = Some n → any n = Return true →
  ∃ d', vs !! 0 = Some (VStruct d') ∧
        d' !! "fparm" = vs !! 6 ∧ d' !! "H" = vs !! 7.
Proof.
  intros Hr H0 Hd Hn Hany.
  destruct (returned_case _ _ _ _ _ Hr H0 Hd)
    as (lv0 & lv & ar & aA & aN & af & aH & a0 & al & au & aU & o &
        Hu & Hm & Har & HaA & HaN & Hcost & _ & _ & _ & _ & ->).
  simpl in Hn. injection Hn as [= <-].
  rewrite Hany in HaN. injection HaN as [= <-].
  destruct (Hcost eq_refl) as [Haf HaH].
  eexists. split; [done|].
  destruct Hm as (_ & _ & HH & Hf & _).
  unfold stored. rewrite !lookup_put.
  split; repeat (case_bool_decide; [|done]); repeat (case_bool_decide; [done|]);
    simpl; rewrite ?andb_false_r, ?andb_true_r.
  - destruct af; [done|]. by eapply merged_without_true.
  - destruct aH; [done|]. by eapply merged_without_true.
Qed.

(** X14. When [any] finds no true element in the returned [N], the fields
    [fparm] and [H] of the returned case are those of the loaded case:
    an explicit [fparm] or [H] is in the tuple but not in the case. *)
Theorem cost_fields_left_without_N (args : list value) l vs c d n :
  opf_args args = (l, Return vs) →
  args !! 0 = Some c → loadcase c = Return (VStruct d) →
  vs !! 5 = Some n → any n = Return false →
  ∃ d', vs !! 0 = Some (VStruct d') ∧
        d' !! "fparm" = d !! "fparm" ∧ d' !! "H" = d !! "H".
Proof.
  intros Hr H0 Hd Hn Hany.
  destruct (returned_case _ _ _ _ _ Hr H0 Hd)
    as (lv0 & lv & ar & aA & aN & af & aH & a0 & al & au & aU & o &
        Hu & Hm & Har & HaA & HaN & Hcost & _ & _ & _ & _ & ->).
  simpl in Hn. injection Hn as [= <-].
  rewrite Hany in HaN. injection HaN as [= <-].
  eexists. split; [done|].
  unfold stored. rewrite !lookup_put.
  split; repeat (case_bool_decide; [|done]); repeat (case_bool_decide; [done|]);
    simpl; by rewrite ?andb_false_r, ?andb_true_r.
Qed.

(** *** The log *)

Lemma logs_in_order_bind {A B : Type} (m : M A) (f : A → M B) S1 S2 :
  logs_in_order S1 m → (∀ a, logs_in_order S2 (f a)) →
  logs_in_order (S1 ++ S2) (bind m f).
Proof.
  unfold logs_in_order. destruct m as [l1 [a|e]]; simpl; intros H1 H2.
  - specialize (H2 a). destruct (f a) as [l2 o]. by apply sublist_app.
  - by apply sublist_inserts_r.
Qed.

Lemma logs_in_order_silent {A : Type} (m : M A) S :
  silent m → logs_in_order S m.
Proof. unfold silent, logs_in_order. intros ->. apply sublist_nil_l. Qed.

Lemma logs_in_order_when c msg : logs_in_order [msg] (when c (logger_error msg)).
Proof. unfold logs_in_order. destruct c; simpl; [done|apply sublist_nil_l]. Qed.

Lemma logs_in_order_cost_checks lv nw :
  logs_in_order [msg_Cw; msg_fparm; msg_H; msg_A_N; msg_N_sparse; msg_H_sparse]
    (cost_checks lv nw).
Proof.
  unfold cost_checks.
  repeat first
    [ apply logs_in_order_when
    | match goal with
      | |- logs_in_order (?m :: ?S) (bind (when _ (logger_error ?m)) _) =>
          apply (logs_in_order_bind _ _ [m] S);
          [apply logs_in_order_when|intros]
      | |- logs_in_order ?S (bind _ _) =>
          apply (logs_in_order_bind _ _ [] S);
          [apply logs_in_order_silent; silent_steps|intros]
      end ].
Qed.

Lemma logs_in_order_validate lv : logs_in_order check_messages (validate lv).
Proof.
  unfold validate, check_messages.
  apply (logs_in_order_bind _ _ [] _); [by apply logs_in_order_silent|].
  intros nw.
  apply (logs_in_order_bind _ _
           [msg_Cw; msg_fparm; msg_H; msg_A_N; msg_N_sparse; msg_H_sparse]
           [msg_Au_sparse]).
  - unfold when. destruct (negb (nw =? 0)).
    + apply logs_in_order_cost_checks.
    + by apply logs_in_order_silent.
  - intros. apply logs_in_order_when.
Qed.

Lemma silent_from_matrices args : silent (from_matrices args).
Proof.
  unfold from_matrices, logger_logger_error.
  apply silent_bind; [|intros [[[[[[??]?]?]?]?]?]; apply silent_ret].
  do 18 (destruct args as [|? args]; [silent_steps|]). silent_steps.
Qed.

(** X15. Whatever the arguments, and whether the call returns or raises,
    its log holds records of the seven checks only, each at most once and
    in the order of the checks; in particular no call logs the record of
    the arity branch, since [logger.logger] raises before it is written. *)
Theorem log_in_check_order (args : list value) :
  logs_in_order check_messages (opf_args args) ∧
  msg_arity ∉ (opf_args args).1.
Proof.
  assert (logs_in_order check_messages (opf_args args)) as Hs.
  { unfold opf_args. destruct args as [|a rest].
    { by apply logs_in_order_silent. }
    apply (logs_in_order_bind _ _ [] check_messages).
    { apply logs_in_order_silent.
      destruct (_ || _); [apply silent_from_case|apply silent_from_matrices]. }
    intros [[ppc areas] lv].
    rewrite <- (app_nil_r check_messages).
    apply logs_in_order_bind; [apply logs_in_order_validate|].
    intros. apply logs_in_order_silent, silent_assemble. }
  split; [done|]. intros Hin.
  unfold logs_in_order in Hs. eapply elem_of_sublist in Hin; [|exact Hs].
  unfold check_messages in Hin. rewrite !elem_of_cons, elem_of_nil in Hin.
  by repeat destruct Hin as [?|Hin].
Qed.

(** *** The log of a call that returns *)

Lemma cost_checks_log lv nw l u :
  cost_checks lv nw = (l, Return u) →
  ∃ cw af fk aH hk a0,
    shape_at (Cw lv) 0 = Return cw ∧
    any (fparm lv) = Return af ∧ shape_at (fparm lv) 0 = Return fk ∧
    any (H lv) = Return aH ∧ shape_at (H lv) 0 = Return hk ∧
    shape_at (Au lv) 0 = Return a0 ∧
    l = cost_log (Au lv) (N lv) (fparm lv) (H lv) nw cw fk hk a0 af aH.
Proof.
  unfold cost_checks. intros Hr.
  apply bind_returns in Hr as (? & cw & ? & [Hcw ->]%lift_returns & Hr & ->).
  apply bind_returns in Hr as (? & [] & ? & ->%when_logger_returns & Hr & ->).
  apply bind_returns in Hr as (? & af & ? & [Haf ->]%lift_returns & Hr & ->).
  apply bind_returns in Hr as (? & fk & ? & [Hf ->]%lift_returns & Hr & ->).
  apply bind_returns in Hr as (? & [] & ? & ->%when_logger_returns & Hr & ->).
  apply bind_returns in Hr as (? & aH & ? & [HaH ->]%lift_returns & Hr & ->).
  apply bind_returns in Hr as (? & hk & ? & [Hh ->]%lift_returns & Hr & ->).
  apply bind_returns in Hr as (? & h' & ? & [Hh' ->]%lift_returns & Hr & ->).
  apply bind_returns in Hr as (? & [] & ? & ->%when_logger_returns & Hr & ->).
  apply bind_returns in Hr as (? & a0 & ? & [Ha0 ->]%lift_returns & Hr & ->).
  apply bind_returns in Hr as (? & n1 & ? & [Hn1 ->]%lift_returns & Hr & ->).
  apply bind_returns in Hr as (lc & c & ? & Hc & Hr & ->).
  apply bind_returns in Hr as (? & [] & ? & ->%when_logger_returns & Hr & ->).
  apply bind_returns in Hr as (? & [] & ? & ->%when_logger_returns & Hr & ->).
  apply when_logger_returns in Hr as ->.
  assert (lc = [] ∧ c = A_N_test (Au lv) a0) as [-> ->].
  { change (Nat.land 0 n1) with 0 in Hc. unfold A_N_test.
    destruct (0 <? a0); simpl.
    - apply bind_returns in Hc as (? & a1 & ? & [Ha1 ->]%lift_returns & Hc & ->).
      rewrite Ha1. by apply ret_returns in Hc as [<- ->].
    - by apply ret_returns in Hc as [<- ->]. }
  assert (h' = hk) as -> by congruence.
  exists cw, af, fk, aH, hk, a0. by repeat split.
Qed.

Lemma returned_log args l vs :
  opf_args args = (l, Return vs) →
  ∃ a n f h w nw,
    vs !! 1 = Some a ∧ vs !! 5 = Some n ∧ vs !! 6 = Some f ∧
    vs !! 7 = Some h ∧ vs !! 8 = Some w ∧
    shape_at n 0 = Return nw ∧
    ((nw = 0 ∧ l = report (negb (isinstance_spmatrix a)) msg_Au_sparse) ∨
     (nw ≠ 0 ∧ ∃ cw af fk aH hk a0,
        shape_at w 0 = Return cw ∧
        any f = Return af ∧ shape_at f 0 = Return fk ∧
        any h = Return aH ∧ shape_at h 0 = Return hk ∧
        shape_at a 0 = Return a0 ∧
        l = cost_log a n f h nw cw fk hk a0 af aH
            ++ report (negb (isinstance_spmatrix a)) msg_Au_sparse)).
Proof.
  intros (ppc & areas & lv & _ & Hv & Ha)%opf_args_returns.
  apply assemble_returns in Ha as (_ & ? & ? & _ & ->).
  apply validate_returns in Hv as (nw & inner & Hnw & Hin & ->).
  exists (Au lv), (N lv), (fparm lv), (H lv), (Cw lv), nw.
  do 6 (split; [done|]).
  destruct (nw =? 0) eqn:E.
  - left. apply Nat.eqb_eq in E. by subst.
  - right. apply Nat.eqb_neq in E. split; [done|].
    apply cost_checks_log in Hin as (cw & af & fk & aH & hk & a0 & ? & ? & ? & ? & ? & ? & ->).
    by exists cw, af, fk, aH, hk, a0.
Qed.

Ltac log_membership :=
  unfold cost_log; rewrite ?elem_of_app, ?elem_of_report.

(** X16. When the returned [N] has no rows, the block of the cost checks
    is skipped: the log of the call holds at most the record that [Au]
    must be sparse. *)
Theorem no_rows_no_cost_checks (args : list value) l vs a n :
  opf_args args = (l, Return vs) →
  vs !! 1 = Some a → vs !! 5 = Some n →
  shape_at n 0 = Return 0 →
  l = report (negb (isinstance_spmatrix a)) msg_Au_sparse.
Proof.
  intros (a' & n' & f & h & w & nw & V1 & V5 & _ & _ & _ & Hnw & Hl)%returned_log
         Ha Hn H0.
  rewrite V1 in Ha. rewrite V5 in Hn. simplify_eq.
  rewrite H0 in Hnw. injection Hnw as [= <-].
  by destruct Hl as [[_ ->]|[Hne _]].
Qed.

(** X17. In a call that returns, the mismatch between [N] and [Cw] is
    logged exactly when [N] has rows and [Cw] has another number of
    rows. *)
Theorem Cw_record_iff (args : list value) l vs n w R k :
  opf_args args = (l, Return vs) →
  vs !! 5 = Some n → vs !! 8 = Some w →
  shape_at n 0 = Return R → shape_at w 0 = Return k →
  msg_Cw ∈ l ↔ R ≠ 0 ∧ k ≠ R.
Proof.
  intros (a' & n' & f & h & w' & nw & _ & V5 & _ & _ & V8 & Hnw & Hl)%returned_log
         Hn Hw HR Hk.
  rewrite V5 in Hn. rewrite V8 in Hw. simplify_eq.
  rewrite HR in Hnw. injection Hnw as [= <-].
  destruct Hl as [[-> ->]|[Hne (cw & af & fk & aH & hk & a0 & Hcw & _ & _ & _ & _ & _ & ->)]].
  - rewrite elem_of_report. split; [by intros [_ [=]]|by intros [? _]].
  - rewrite Hk in Hcw. injection Hcw as [= <-]. log_membership.
    rewrite negb_true_iff, Nat.eqb_neq. naive_solver.
Qed.

(** X18. The test [any(fparm) & fparm.shape[0] != nw] compares
    [any(fparm) & fparm.shape[0]], which is 0 or 1, with the rows of [N]:
    a call that returns has logged the mismatch between [N] and [fparm]
    whenever [N] has two rows or more, and whenever [N] has one row and
    [any] finds no true element in [fparm]. *)
Theorem fparm_reported (args : list value) l vs n f R a :
  opf_args args = (l, Return vs) →
  vs !! 5 = Some n → vs !! 6 = Some f →
  shape_at n 0 = Return R → any f = Return a →
  2 ≤ R ∨ (R = 1 ∧ a = false) →
  msg_fparm ∈ l.
Proof.
  intros (a' & n' & f' & h & w' & nw & _ & V5 & V6 & _ & _ & Hnw & Hl)%returned_log
         Hn Hf HR Ha Hcase.
  rewrite V5 in Hn. rewrite V6 in Hf. simplify_eq.
  rewrite HR in Hnw. injection Hnw as [= <-].
  destruct Hl as [[-> ->]|[Hne (cw & af & fk & aH & hk & a0 & _ & Haf & _ & _ & _ & _ & ->)]];
    [lia|].
  rewrite Ha in Haf. injection Haf as [= <-]. log_membership. left. right. left. split; [|done].
  apply negb_true_iff, Nat.eqb_neq.
  destruct a; simpl.
  - destruct Hcase as [HR2|[_ [=]]].
    assert (Nat.land 1 fk ≤ 1); [|lia].
    rewrite Nat.land_comm. change 1 with (Nat.ones 1) at 1.
    rewrite Nat.land_ones. simpl. pose proof (Nat.mod_upper_bound fk 2). lia.
  - rewrite Nat.land_0_l. lia.
Qed.

(** X19. For an [A] of two dimensions, a call that returns has logged
    that [A] and [N] must have the same number of columns exactly when [N]
    has rows and [A] has a row and a column; the columns of [N] play no
    part. *)
Theorem A_N_record_iff (args : list value) l vs a n R ra ca :
  opf_args args = (l, Return vs) →
  vs !! 1 = Some a → vs !! 5 = Some n →
  shape a = Return [ra; ca] → shape_at n 0 = Return R →
  msg_A_N ∈ l ↔ R ≠ 0 ∧ ra ≠ 0 ∧ ca ≠ 0.
Proof.
  intros (a' & n' & f' & h & w' & nw & V1 & V5 & _ & _ & _ & Hnw & Hl)%returned_log
         Ha Hn Hs HR.
  rewrite V1 in Ha. rewrite V5 in Hn. simplify_eq.
  rewrite HR in Hnw. injection Hnw as [= <-].
  destruct Hl as [[-> ->]|[Hne (cw & af & fk & aH & hk & a0 & _ & _ & _ & _ & _ & Ha0 & ->)]].
  - rewrite elem_of_report. split; [by intros [_ [=]]|by intros [? _]].
  - unfold shape_at in Ha0. rewrite Hs in Ha0. simpl in Ha0. simplify_eq.
    assert (A_N_test a a0 = true ↔ a0 ≠ 0 ∧ ca ≠ 0) as Ht.
    { unfold A_N_test, shape_at. rewrite Hs.
      destruct a0, ca; simpl; split; try done; by intros []. }
    log_membership. rewrite Ht.
    split; [|intros (_ & ? & ?); left; do 3 right; by left].
    by intros [[[_ [=]]|[[_ [=]]|[[_ [=]]|[[? _]|[[_ [=]]|[_ [=]]]]]]]|[_ [=]]].
Qed.

(** X20. The test of [H] compares rows through a bitwise or: when the
    rows [R] of [N] and the rows [k] of [H] satisfy [R | k = k] or
    [R | k = R] (for instance 1 and 3), a call that returns has not
    logged the mismatch between [N] and [H]. *)
Theorem H_check_blind_spot (args : list value) l vs n h R k :
  opf_args args = (l, Return vs) →
  vs !! 5 = Some n → vs !! 7 = Some h →
  shape_at n 0 = Return R → shape_at h 0 = Return k →
  Nat.lor R k = k ∨ Nat.lor R k = R →
  msg_H ∉ l.
Proof.
  intros (a' & n' & f' & h' & w' & nw & _ & V5 & _ & V7 & _ & Hnw & Hl)%returned_log
         Hn Hh HR Hk Hor.
  rewrite V5 in Hn. rewrite V7 in Hh. simplify_eq.
  rewrite HR in Hnw. injection Hnw as [= <-].
  destruct Hl as [[-> ->]|[Hne (cw & af & fk & aH & hk & a0 & _ & _ & _ & _ & Hhk & _ & ->)]].
  - rewrite elem_of_report. by intros [_ [=]].
  - rewrite Hk in Hhk. injection Hhk as [= <-]. log_membership.
    intros [[[_ [=]]|[[_ [=]]|[[Hc _]|[[_ [=]]|[[_ [=]]|[_ [=]]]]]]]|[_ [=]]].
    apply andb_true_iff in Hc as [_ [Hc1 Hc2]%andb_true_iff].
    apply negb_true_iff, Nat.eqb_neq in Hc1, Hc2. destruct Hor; congruence.
Qed.

(** X21. A call that returns has not logged that [Au], [N] or [H] must
    be sparse for an [A], [N] or [H] that is a sparse matrix. *)
Theorem sparse_never_reported (args : list value) l vs a n h :
  opf_args args = (l, Return vs) →
  vs !! 1 = Some a → vs !! 5 = Some n → vs !! 7 = Some h →
  (isinstance_spmatrix a = true → msg_Au_sparse ∉ l) ∧
  (isinstance_spmatrix n = true → msg_N_sparse ∉ l) ∧
  (isinstance_spmatrix h = true → msg_H_sparse ∉ l).
Proof.
  intros (a' & n' & f' & h' & w' & nw & V1 & V5 & _ & V7 & _ & Hnw & Hl)%returned_log
         Ha Hn Hh.
  rewrite V1 in Ha. rewrite V5 in Hn. rewrite V7 in Hh. simplify_eq.
  destruct Hl as [[-> ->]|[Hne (cw & af & fk & aH & hk & a0 & _ & _ & _ & _ & _ & _ & ->)]].
  - rewrite !elem_of_report. split; [|split]; intros Hs; [rewrite Hs| |];
      by intros [? [=]].
  - log_membership. split; [|split]; intros ->; simpl; naive_solver.
Qed.

(** *** The order of the returned tuple *)



End OpfArgs.

(** ** The properties at the sample calls *)

(** C1. The call [opf_args(baseMVA, bus, gen, branch, areas, gencost)] of
    the docstring returns nothing: [N] is bound to [None] and [N.shape]
    raises. *)
Theorem six_matrices_no_result :
  opf_args sample_ppoption sample_loadcase call_6 = ([], Raise AttributeError).
Proof. reflexivity. Qed.

(** C7. With twelve arguments, an explicit [z0] that holds a number and a
    case without a field [z0], the merge reads [ppc["z0"]] all the same and
    the call ends with a [KeyError]. *)
Theorem explicit_z0_lost :
  any (array1 [4%Z]) = Return true ∧
  delete "z0" full_fields !! "z0" = None ∧
  opf_args sample_ppoption sample_loadcase call_z0_explicit
  = ([], Raise KeyError).
Proof. by vm_compute. Qed.

(** An explicit [z0] of two zeros is replaced by the [z0] of the case. *)
Lemma zero_z0_replaced :
  ∃ l vs,
    opf_args sample_ppoption sample_loadcase call_z0_zeros = (l, Return vs) ∧
    call_z0_zeros !! 9 = Some (array1 [0%Z; 0%Z]) ∧
    vs !! 9 = Some (array1 [7%Z]).
Proof. eexists _, _. split; [reflexivity|]. by vm_compute. Qed.

(** C8. The call [opf_args(ppc, A, l, u)] leaves the options out and
    returns nothing: [N] is bound to [None] and [any(N)] raises. *)
Theorem no_options_no_result :
  opf_args sample_ppoption sample_loadcase call_4 = ([], Raise TypeError).
Proof. by vm_compute. Qed.

(** A call that passes an empty options dict returns the default
    options. *)
Lemma empty_options_at_call :
  ∃ l vs,
    opf_args sample_ppoption sample_loadcase call_no_opts = (l, Return vs) ∧
    vs !! 4 = Some sample_ppoption.
Proof. eexists _, _. split; [reflexivity|]. by vm_compute. Qed.

(** C9. For the full case, neither the call [opf_args(ppc)] nor the call
    with the six matrices of the case returns a result. *)
Theorem one_and_six_no_result :
  opf_args sample_ppoption sample_loadcase call_1 = ([], Raise TypeError) ∧
  opf_args sample_ppoption sample_loadcase call_6
  = ([], Raise AttributeError).
Proof. by vm_compute. Qed.

(** The call with eleven arguments is rejected. *)
Lemma arity_rejected_witness :
  recognized call_11 = false ∧
  ∃ e, opf_args sample_ppoption sample_loadcase call_11 = ([], Raise e).
Proof.
  split; [reflexivity|].
  apply (arity_rejected sample_ppoption sample_loadcase call_11).
  reflexivity.
Defined.

(** The call with the six matrices leaves [N] out. *)
Lemma no_result_without_N_witness :
  leaves_N_out call_6 = true ∧
  ∃ e, opf_args sample_ppoption sample_loadcase call_6 = ([], Raise e).
Proof.
  split; [reflexivity|].
  apply (no_result_without_N sample_ppoption sample_loadcase call_6).
  reflexivity.
Defined.


(** C4 fails as stated: with an [N] of one row and a [Cw] of two rows the
    call returns its tuple. *)
Lemma Cw_mismatch_returns :
  opf_args sample_ppoption sample_loadcase call_Cw_2
  = ([msg_Cw; msg_A_N], Return (result_of A' N' H' (array1 [6%Z; 6%Z]))) ∧
  shape_at N' 0 = Return 1 ∧
  shape_at (array1 [6%Z; 6%Z]) 0 = Return 2.
Proof. by vm_compute. Qed.

Lemma Cw_mismatch_is_logged_witness :
  opf_args sample_ppoption sample_loadcase call_Cw_2
  = ([msg_Cw; msg_A_N], Return (result_of A' N' H' (array1 [6%Z; 6%Z]))) ∧
  msg_Cw ∈ [msg_Cw; msg_A_N].
Proof.
  split; [by vm_compute|].
  apply (Cw_mismatch_is_logged sample_ppoption sample_loadcase call_Cw_2
           [msg_Cw; msg_A_N] (result_of A' N' H' (array1 [6%Z; 6%Z]))
           N' (array1 [6%Z; 6%Z]) 1 2);
    first [ by vm_compute | lia ].
Defined.

(** With an [N] of one row and an [H] of two rows and one column the call
    logs the mismatch and returns its tuple. *)
Lemma H_mismatch_returns :
  opf_args sample_ppoption sample_loadcase call_H_2x1
  = ([msg_H; msg_A_N],
     Return (result_of A' N' (VSparse 2 1 [(0, 0, 5%Z)]) Cw')) ∧
  shape N' = Return [1; 1] ∧
  shape (VSparse 2 1 [(0, 0, 5%Z)]) = Return [2; 1].
Proof. by vm_compute. Qed.

Lemma H_mismatch_is_logged_witness :
  opf_args sample_ppoption sample_loadcase call_H_2x1
  = ([msg_H; msg_A_N],
     Return (result_of A' N' (VSparse 2 1 [(0, 0, 5%Z)]) Cw')) ∧
  ∃ n h R k,
    result_of A' N' (VSparse 2 1 [(0, 0, 5%Z)]) Cw' !! 5 = Some n ∧
    result_of A' N' (VSparse 2 1 [(0, 0, 5%Z)]) Cw' !! 7 = Some h ∧
    shape_at n 0 = Return R ∧ R ≠ 0 ∧
    any h = Return true ∧ shape_at h 0 = Return k ∧ k ≠ R.
Proof.
  split; [by vm_compute|].
  apply (H_mismatch_is_logged sample_ppoption sample_loadcase call_H_2x1
           [msg_H; msg_A_N]).
  - by vm_compute.
  - apply list_elem_of_here.
Defined.

(** C6 fails as stated: with a dense [A] the call returns its tuple. *)
Lemma dense_A_returns :
  opf_args sample_ppoption sample_loadcase call_dense_A
  = ([msg_A_N; msg_Au_sparse],
     Return (result_of (VArray [1; 1] [4%Z]) N' H' Cw')) ∧
  isinstance_spmatrix (VArray [1; 1] [4%Z]) = false.
Proof. by vm_compute. Qed.

Lemma dense_is_logged_witness :
  opf_args sample_ppoption sample_loadcase call_dense_A
  = ([msg_A_N; msg_Au_sparse],
     Return (result_of (VArray [1; 1] [4%Z]) N' H' Cw')) ∧
  (isinstance_spmatrix (VArray [1; 1] [4%Z]) = false →
   msg_Au_sparse ∈ [msg_A_N; msg_Au_sparse]) ∧
  (1 ≠ 0 → isinstance_spmatrix N' = false →
   msg_N_sparse ∈ [msg_A_N; msg_Au_sparse]) ∧
  (1 ≠ 0 → isinstance_spmatrix H' = false →
   msg_H_sparse ∈ [msg_A_N; msg_Au_sparse]).
Proof.
  split; [by vm_compute|].
  apply (dense_is_logged sample_ppoption sample_loadcase call_dense_A
           [msg_A_N; msg_Au_sparse]
           (result_of (VArray [1; 1] [4%Z]) N' H' Cw')
           (VArray [1; 1] [4%Z]) N' H' 1); by vm_compute.
Defined.

(** ** The further properties at the sample calls *)

Ltac in_list := repeat first [apply list_elem_of_here | apply list_elem_of_further].

Lemma matrices_first_raises_witness :
  is_case (VNum 100) = false ∧
  opf_args sample_ppoption sample_loadcase call_17
  = ([], Raise UnboundLocalError).
Proof.
  split; [reflexivity|].
  apply (matrices_first_raises sample_ppoption sample_loadcase (VNum 100)).
  reflexivity.
Defined.

Lemma loader_failure_propagates_witness :
  sample_loadcase (VStr "case9") = Raise IOError ∧
  opf_args sample_ppoption sample_loadcase call_file = ([], Raise IOError).
Proof.
  split; [reflexivity|].
  apply (loader_failure_propagates sample_ppoption sample_loadcase
           (VStr "case9") [opts'] IOError);
    [reflexivity|in_list|reflexivity].
Defined.

Lemma one_argument_loads_the_tuple_witness :
  strict_loadcase (VDict full_fields) = Return (VStruct full_fields) ∧
  opf_args sample_ppoption strict_loadcase call_1 = ([], Raise ValueError).
Proof.
  split; [reflexivity|].
  apply (one_argument_loads_the_tuple sample_ppoption strict_loadcase
           (VDict full_fields) ValueError); reflexivity.
Defined.

Lemma returning_needs_fields_witness :
  ∃ c d,
    call_9 !! 0 = Some c ∧ sample_loadcase c = Return (VStruct d) ∧
    ∀ k, k ∈ base_keys ++ optional_keys → is_Some (d !! k).
Proof.
  apply (returning_needs_fields sample_ppoption sample_loadcase call_9
           [msg_A_N] (result_of A' N' H' Cw')).
  by vm_compute.
Defined.

Lemma explicit_kept_witness :
  any A' = Return true ∧ result_of A' N' H' Cw' !! 1 = Some A'.
Proof.
  split; [reflexivity|].
  apply (explicit_kept sample_ppoption sample_loadcase call_9
           [msg_A_N] (result_of A' N' H' Cw') 1 A');
    [by vm_compute|in_list|reflexivity|reflexivity].
Defined.

Lemma explicit_replaced_witness :
  ∃ l vs,
    opf_args sample_ppoption sample_loadcase call_z0_zeros = (l, Return vs) ∧
    any (array1 [0%Z; 0%Z]) = Return false ∧
    vs !! 9 = full_fields !! "z0".
Proof.
  eexists _, _. split; [reflexivity|]. split; [reflexivity|].
  eapply (explicit_replaced sample_ppoption sample_loadcase call_z0_zeros
           _ _ (VDict full_fields) full_fields 9 "z0" (array1 [0%Z; 0%Z]));
    [reflexivity|reflexivity|reflexivity|in_list|reflexivity|reflexivity].
Defined.

Lemma bounds_follow_A_witness :
  ∃ l vs,
    opf_args sample_ppoption sample_loadcase call_A_empty = (l, Return vs) ∧
    call_A_empty !! 2 = Some l' ∧
    vs !! 2 = full_fields !! "l" ∧ vs !! 3 = full_fields !! "u".
Proof.
  eexists _, _. split; [reflexivity|]. split; [reflexivity|].
  eapply (bounds_follow_A sample_ppoption sample_loadcase call_A_empty
           _ _ (VDict full_fields) full_fields (VSparse 0 1 []) false);
    reflexivity.
Defined.

Lemma Cw_follows_N_witness :
  result_of A' N' H' Cw' !! 8 = call_9 !! 8.
Proof.
  apply (Cw_follows_N sample_ppoption sample_loadcase call_9
           [msg_A_N] (result_of A' N' H' Cw')
           (VDict full_fields) full_fields N' true);
    first [reflexivity | by vm_compute].
Defined.

Lemma omitted_come_from_case_witness :
  length call_9 = 9 ∧
  result_of A' N' H' Cw' !! 9 = full_fields !! "z0" ∧
  result_of A' N' H' Cw' !! 10 = full_fields !! "zl" ∧
  result_of A' N' H' Cw' !! 11 = full_fields !! "zu".
Proof.
  split; [reflexivity|].
  apply (omitted_come_from_case sample_ppoption sample_loadcase call_9
           [msg_A_N] (result_of A' N' H' Cw') (VDict full_fields));
    first [reflexivity | by vm_compute].
Defined.

Lemma options_returned_witness :
  ∃ l vs,
    opf_args sample_ppoption sample_loadcase call_no_opts = (l, Return vs) ∧
    ∃ n, len (VDict ∅) = Return n ∧
         vs !! 4 = Some (if n =? 0 then sample_ppoption else VDict ∅).
Proof.
  eexists _, _. split; [reflexivity|].
  eapply (options_returned sample_ppoption sample_loadcase call_no_opts);
    reflexivity.
Defined.

Lemma case_keeps_other_fields_witness :
  ("baseMVA" ∉ written_keys) ∧
  ∃ d', result_of A' N' H' Cw' !! 0 = Some (VStruct d') ∧
        d' !! "baseMVA" = full_fields !! "baseMVA".
Proof.
  assert ("baseMVA" ∉ written_keys) as Hk.
  { apply (bool_decide_unpack _). by vm_compute. }
  split; [exact Hk|].
  apply (case_keeps_other_fields sample_ppoption sample_loadcase call_9
           [msg_A_N] (result_of A' N' H' Cw') (VDict full_fields));
    first [reflexivity | by vm_compute | exact Hk].
Defined.

Lemma case_holds_returned_components_witness :
  ∃ d', result_of A' N' H' Cw' !! 0 = Some (VStruct d') ∧
        d' !! "A" = result_of A' N' H' Cw' !! 1.
Proof.
  apply (case_holds_returned_components sample_ppoption sample_loadcase
           call_9 [msg_A_N] (result_of A' N' H' Cw')
           (VDict full_fields) full_fields 1 "A");
    first [reflexivity | by vm_compute | in_list].
Defined.

Lemma cost_fields_stored_with_N_witness :
  any N' = Return true ∧
  ∃ d', result_of A' N' H' Cw' !! 0 = Some (VStruct d') ∧
        d' !! "fparm" = result_of A' N' H' Cw' !! 6 ∧
        d' !! "H" = result_of A' N' H' Cw' !! 7.
Proof.
  split; [reflexivity|].
  apply (cost_fields_stored_with_N sample_ppoption sample_loadcase call_9
           [msg_A_N] (result_of A' N' H' Cw')
           (VDict full_fields) full_fields N');
    first [reflexivity | by vm_compute].
Defined.

Lemma cost_fields_left_without_N_witness :
  ∃ l vs,
    opf_args sample_ppoption sample_loadcase call_no_N = (l, Return vs) ∧
    vs !! 7 = Some H' ∧
    ∃ d', vs !! 0 = Some (VStruct d') ∧
          d' !! "fparm" = fields_no_N !! "fparm" ∧
          d' !! "H" = fields_no_N !! "H".
Proof.
  eexists _, _. split; [reflexivity|]. split; [reflexivity|].
  eapply (cost_fields_left_without_N sample_ppoption sample_loadcase call_no_N
           _ _ (VDict fields_no_N) fields_no_N (VSparse 0 1 []));
    reflexivity.
Defined.

Lemma no_rows_no_cost_checks_witness :
  ∃ l vs,
    opf_args sample_ppoption sample_loadcase call_no_N = (l, Return vs) ∧
    l = report (negb (isinstance_spmatrix A')) msg_Au_sparse.
Proof.
  eexists _, _. split; [reflexivity|].
  eapply (no_rows_no_cost_checks sample_ppoption sample_loadcase call_no_N
           _ _ A' (VSparse 0 1 [])); reflexivity.
Defined.

Lemma Cw_record_iff_witness :
  msg_Cw ∈ [msg_Cw; msg_A_N] ↔ 1 ≠ 0 ∧ 2 ≠ 1.
Proof.
  apply (Cw_record_iff sample_ppoption sample_loadcase call_Cw_2
           [msg_Cw; msg_A_N] (result_of A' N' H' (array1 [6%Z; 6%Z]))
           N' (array1 [6%Z; 6%Z]) 1 2);
    first [reflexivity | by vm_compute].
Defined.

Lemma fparm_reported_witness :
  ∃ l vs,
    opf_args sample_ppoption sample_loadcase call_two_rows = (l, Return vs) ∧
    vs !! 5 = Some (VSparse 2 1 [(0, 0, 3%Z)]) ∧
    vs !! 6 = Some (VArray [2; 1] [1%Z; 1%Z]) ∧
    msg_fparm ∈ l.
Proof.
  eexists _, _. split; [reflexivity|]. do 2 (split; [reflexivity|]).
  eapply (fparm_reported sample_ppoption sample_loadcase call_two_rows
           _ _ (VSparse 2 1 [(0, 0, 3%Z)]) (VArray [2; 1] [1%Z; 1%Z]) 2 true);
    first [reflexivity | left; lia].
Defined.

Lemma A_N_record_iff_witness :
  shape A' = Return [1; 1] ∧ shape N' = Return [1; 1] ∧
  (msg_A_N ∈ [msg_A_N] ↔ 1 ≠ 0 ∧ 1 ≠ 0 ∧ 1 ≠ 0).
Proof.
  do 2 (split; [reflexivity|]).
  apply (A_N_record_iff sample_ppoption sample_loadcase call_9
           [msg_A_N] (result_of A' N' H' Cw') A' N' 1 1 1);
    first [reflexivity | by vm_compute].
Defined.

Lemma H_check_blind_spot_witness :
  ∃ l vs,
    opf_args sample_ppoption sample_loadcase call_H_3x1 = (l, Return vs) ∧
    vs !! 5 = Some N' ∧ vs !! 7 = Some (VSparse 3 1 [(0, 0, 5%Z)]) ∧
    msg_H ∉ l.
Proof.
  eexists _, _. split; [reflexivity|]. do 2 (split; [reflexivity|]).
  eapply (H_check_blind_spot sample_ppoption sample_loadcase call_H_3x1
           _ _ N' (VSparse 3 1 [(0, 0, 5%Z)]) 1 3);
    first [reflexivity | by left].
Defined.

Lemma sparse_never_reported_witness :
  (isinstance_spmatrix A' = true → msg_Au_sparse ∉ [msg_A_N]) ∧
  (isinstance_spmatrix N' = true → msg_N_sparse ∉ [msg_A_N]) ∧
  (isinstance_spmatrix H' = true → msg_H_sparse ∉ [msg_A_N]).
Proof.
  apply (sparse_never_reported sample_ppoption sample_loadcase call_9
           [msg_A_N] (result_of A' N' H' Cw') A' N' H');
    first [reflexivity | by vm_compute].
Defined.

(** ** The revised properties at the sample calls *)



(** C3. The call with eleven arguments, a count outside the accepted set,
    is not reported as such: [logger.logger] raises [AttributeError]
    before the record of the arity branch is written, so the call ends
    exactly as the recognized call with the six matrices ends, with an
    empty log. *)
Theorem eleven_arguments_unreported :
  recognized call_11 = false ∧
  opf_args sample_ppoption sample_loadcase call_11
  = ([], Raise AttributeError) ∧
  recognized call_6 = true ∧
  opf_args sample_ppoption sample_loadcase call_6
  = ([], Raise AttributeError).
Proof. by vm_compute. Qed.

(** C5. With an [N] of one row, an [H] of three rows and one column and
    an [H] of one row and five columns both pass the check of line 285:
    the call returns its tuple and its log holds no record about [H]. *)
Theorem H_mismatch_unreported :
  shape N' = Return [1; 1] ∧
  shape (VSparse 3 1 [(0, 0, 5%Z)]) = Return [3; 1] ∧
  opf_args sample_ppoption sample_loadcase call_H_3x1
  = ([msg_A_N], Return (result_of A' N' (VSparse 3 1 [(0, 0, 5%Z)]) Cw')) ∧
  shape (VSparse 1 5 [(0, 0, 5%Z)]) = Return [1; 5] ∧
  opf_args sample_ppoption sample_loadcase call_H_1x5
  = ([msg_A_N], Return (result_of A' N' (VSparse 1 5 [(0, 0, 5%Z)]) Cw')).
Proof. by vm_compute. Qed.
